(** * Bin Duty: the rotation schedule and the month grid

    A shallow embedding of the date logic of the Bin Duty component
    (BinDuty.jsx, duty on Thursdays, and its Wednesday variant): the
    calendar utilities, [getAssigneeForDate], the two bounded scans
    [twelveWeeks] and [nextForSelected], and [buildMonthGrid].

    The component computes with the JavaScript [Date] object.  Part I
    embeds the part of ECMA-262 (section 21.4, "Date Objects") that the
    component calls, Part II the component's own functions, line by line;
    Part III names what the properties speak of; the lemmas and theorems
    follow.

    Conventions of the embedding.
    - JavaScript numbers that hold integers are [Z], and
      [Math.round(n / m)] is taken on the exact quotient.  The range limit
      of time values (8.64e15 ms either side of the epoch) and the
      [Invalid Date] that results from leaving it are not represented: a
      date is any integer day.
    - A [Date] is held by its local fields.  What the time zone does to
      them is met only in [getTime].  A local time that the zone skips (the
      gap of a daylight-saving change) is not represented: the constructor
      gives time of day 0, and [setDate] and [setMonth] keep the time of
      day, also where the runtime would move it on by the width of the
      gap.  The calendar day is the same either way, and the properties
      proved of the component speak of calendar days.
    - The [Date] constructor called with a year, a month and a day reads a
      year from 0 to 99 as 1900 to 1999 (ECMA-262, [MakeFullYear]);
      [setDate] and [setMonth] do not.  The embedding keeps the
      difference.
    - [null] and [undefined] are both [None].
    - An array is a [list], [a.push(x)] is [a ++ [x]], and [a[i]] is
      [nth_error]. *)

From Stdlib Require Import ZArith List Lia Bool String Permutation.
Import ListNotations.
Local Open Scope Z_scope.

(* ================================================================== *)
(** * Part I: the runtime's Date (ECMA-262, section 21.4.1)            *)
(* ================================================================== *)

Module ECMA.

Definition msPerDay : Z := 86400000.

(** [DaysInYear(y)]. *)
Definition DaysInYear (y : Z) : Z :=
  if negb (y mod 4 =? 0) then 365
  else if negb (y mod 100 =? 0) then 366
  else if negb (y mod 400 =? 0) then 365
  else 366.

(** [DayFromYear(y)]: the day number of the first day of year [y]. *)
Definition DayFromYear (y : Z) : Z :=
  365 * (y - 1970) + (y - 1969) / 4 - (y - 1901) / 100 + (y - 1601) / 400.

(** [YearFromTime]: ECMA-262 defines it as "the largest integer [y] such
    that [TimeFromYear(y) <= t]".  This is an executable form on day
    numbers: an estimate from the mean length of the Gregorian year,
    corrected by at most one.  [YearFromDay_spec] and
    [YearFromDay_unique] below show that it is the year of the
    definition. *)
Definition YearFromDay (n : Z) : Z :=
  let y0 := 1970 + (400 * n) / 146097 in
  if n <? DayFromYear y0 then y0 - 1
  else if DayFromYear (y0 + 1) <=? n then y0 + 1
  else y0.

(** [InLeapYear], as the number 0 or 1: of the year of a day, and of a
    year. *)
Definition InLeapYear (n : Z) : Z :=
  if DaysInYear (YearFromDay n) =? 366 then 1 else 0.

Definition LeapOfYear (y : Z) : Z :=
  if DaysInYear y =? 366 then 1 else 0.

Definition DayWithinYear (n : Z) : Z := n - DayFromYear (YearFromDay n).

(** The day within the year on which month [m] (0 = January) starts;
    these are the bounds of the table that defines [MonthFromTime]. *)
Definition monthStart (m leap : Z) : Z :=
  match m with
  | 0 => 0
  | 1 => 31
  | 2 => 59 + leap
  | 3 => 90 + leap
  | 4 => 120 + leap
  | 5 => 151 + leap
  | 6 => 181 + leap
  | 7 => 212 + leap
  | 8 => 243 + leap
  | 9 => 273 + leap
  | 10 => 304 + leap
  | 11 => 334 + leap
  | _ => 365 + leap
  end.

(** [MonthFromTime]. *)
Definition MonthFromDay (n : Z) : Z :=
  let d := DayWithinYear n in
  let leap := InLeapYear n in
  if d <? 31 then 0
  else if d <? 59 + leap then 1
  else if d <? 90 + leap then 2
  else if d <? 120 + leap then 3
  else if d <? 151 + leap then 4
  else if d <? 181 + leap then 5
  else if d <? 212 + leap then 6
  else if d <? 243 + leap then 7
  else if d <? 273 + leap then 8
  else if d <? 304 + leap then 9
  else if d <? 334 + leap then 10
  else 11.

(** [DateFromTime]: the day of the month, from 1. *)
Definition DateFromDay (n : Z) : Z :=
  DayWithinYear n - monthStart (MonthFromDay n) (InLeapYear n) + 1.

(** [WeekDay]: 0 = Sunday; day 0 (1 January 1970) was a Thursday. *)
Definition WeekDay (n : Z) : Z := (n + 4) mod 7.

(** [MakeDay(year, month, date)]: months outside 0..11 carry into the
    year, and [date] is an offset from the first of the month that may
    itself leave the month in either direction. *)
Definition MakeDay (year month date : Z) : Z :=
  let ym := year + month / 12 in
  let mn := month mod 12 in
  DayFromYear ym + monthStart mn (LeapOfYear ym) + date - 1.

(** [MakeFullYear]: the [Date] constructor reads a year from 0 to 99 as
    a year of the twentieth century. *)
Definition MakeFullYear (year : Z) : Z :=
  if (0 <=? year) && (year <=? 99) then 1900 + year else year.

End ECMA.

Import ECMA.

(** A [Date], seen through its local-time accessors: the local calendar
    day (days since 1 January 1970) and the milliseconds since local
    midnight.  [LocalTime] of the stored time value is
    [localDay * msPerDay + timeInDay]. *)
Record Date : Type := mkDate { localDay : Z; timeInDay : Z }.

(** The host's time zone, met only through [getTime]: ECMA-262's [UTC(t)]
    maps a local time to the time value.  One property of the zone is
    assumed, the one [daysBetween] relies on when it rounds: two local
    midnights are a whole number of days apart up to less than half a
    day.  A daylight-saving change moves a midnight by an hour or so; a
    zone that moves its clock by twelve hours or more is outside the
    model.  [utcZone] and [easternZone] below are two such zones. *)
Record TimeZone : Type := mkTimeZone {
  UTC : Z -> Z;
  UTC_midnights : forall a b : Z,
    2 * Z.abs (UTC (b * msPerDay) - UTC (a * msPerDay) - (b - a) * msPerDay)
    < msPerDay
}.

Definition getFullYear (d : Date) : Z := YearFromDay (localDay d).
Definition getMonth (d : Date) : Z := MonthFromDay (localDay d).
Definition getDate (d : Date) : Z := DateFromDay (localDay d).
Definition getDay (d : Date) : Z := WeekDay (localDay d).

Definition getTime (tz : TimeZone) (d : Date) : Z :=
  UTC tz (localDay d * msPerDay + timeInDay d).

(** [new Date(year, month, date)]: the day made of the three fields, at
    time of day 0 (where the zone skips local midnight the runtime gives
    the first time of that day instead; the day is the same). *)
Definition newDate (year month date : Z) : Date :=
  mkDate (MakeDay (MakeFullYear year) month date) 0.

(** [d.setDate(dt)] and [d.setMonth(m)], as the new value of [d]: the day
    is made afresh from the year and the other field, the time of day is
    kept (a time of day that the zone skips on the new day is moved on by
    the runtime; the day is the same).  Neither goes through
    [MakeFullYear]. *)
Definition setDate (d : Date) (dt : Z) : Date :=
  mkDate (MakeDay (getFullYear d) (getMonth d) dt) (timeInDay d).

Definition setMonth (d : Date) (m : Z) : Date :=
  mkDate (MakeDay (getFullYear d) m (getDate d)) (timeInDay d).

(** [Math.round(n / m)] for integers [n] and [m > 0]: the nearest integer,
    a half rounding up. *)
Definition Math_round_div (n m : Z) : Z := (2 * n + m) / (2 * m).

(** [a[i]] for an integer [i]. *)
Definition index {A : Type} (a : list A) (i : Z) : option A :=
  if i <? 0 then None else nth_error a (Z.to_nat i).

(* ================================================================== *)
(** * Part II: the component                                           *)
(* ================================================================== *)

Record Tenant : Type := mkTenant { id : string; name : string }.

(** An entry of the upcoming lists, [{ date, who }]. *)
Module Entry.
Record t : Type := make { date : Date; who : option Tenant }.
End Entry.

(** A cell of the month grid, [{ date, inMonth }]. *)
Module Cell.
Record t : Type := make { date : Date; inMonth : bool }.
End Cell.

(** ** Utilities *)

Definition MS_PER_DAY : Z := 24 * 60 * 60 * 1000.

Definition toLocalMidnight (d : Date) : Date :=
  newDate (getFullYear d) (getMonth d) (getDate d).

Definition daysBetween (tz : TimeZone) (a b : Date) : Z :=
  let a0 := getTime tz (toLocalMidnight a) in
  let b0 := getTime tz (toLocalMidnight b) in
  Math_round_div (b0 - a0) MS_PER_DAY.

Definition addDays (d : Date) (n : Z) : Date :=
  let r := d in
  setDate r (getDate r + n).

Definition addMonths (d : Date) (n : Z) : Date :=
  let r := d in
  setMonth r (getMonth r + n).

Definition isSameDay (a b : Date) : bool :=
  (getFullYear a =? getFullYear b) && (getMonth a =? getMonth b)
  && (getDate a =? getDate b).

(** ** Assignment and the scans

    The source fixes the tenants, the anchor and the duty weekday as
    module constants; its variants differ in the weekday alone
    ([THURSDAY] in BinDuty.jsx, the literal 3 in the Wednesday variant,
    [DUTY_DAY] here).  Here the three are the variables of a section,
    instantiated with the source's constants in [Thursday] and
    [Wednesday] below.  [today] is [toLocalMidnight(new Date())] in the
    source: the clock is read by the caller. *)

Section Rotation.

Variable tz : TimeZone.
Variable TENANTS : list Tenant.
Variable ROTATION_START : Date.
Variable DUTY_DAY : Z.

Definition getAssigneeForDate (date : Date) : option Tenant :=
  if negb (getDay date =? DUTY_DAY) then None
  else
    let diff := Z.max 0 (daysBetween tz ROTATION_START date) in
    let weeks := diff / 7 in
    let idx := Z.rem weeks (Z.of_nat (List.length TENANTS)) in
    index TENANTS idx.

Variable today : Date.

(** [for (let i = 0; i < 120; i++)] with its [break]: [steps] passes are
    left and the counter is [i]. *)
Fixpoint twelveWeeks_loop (steps : nat) (i : Z)
    (list : Datatypes.list Entry.t) : Datatypes.list Entry.t :=
  match steps with
  | O => list
  | S steps' =>
      let candidate := addDays today i in
      if getDay candidate =? DUTY_DAY then
        let list' :=
          list ++ [Entry.make candidate (getAssigneeForDate candidate)] in
        if (List.length list' =? 12)%nat then list'
        else twelveWeeks_loop steps' (i + 1) list'
      else twelveWeeks_loop steps' (i + 1) list
  end.

Definition twelveWeeks : list Entry.t := twelveWeeks_loop 120 0 [].

(** [for (let i = 0; i < 365; i++)] with its [continue] and [return]. *)
Fixpoint nextForSelected_loop (selectedTenantId : string)
    (steps : nat) (i : Z) : option Date :=
  match steps with
  | O => None
  | S steps' =>
      let candidate := addDays today i in
      if negb (getDay candidate =? DUTY_DAY) then
        nextForSelected_loop selectedTenantId steps' (i + 1)
      else
        match getAssigneeForDate candidate with
        | Some who =>
            if String.eqb (id who) selectedTenantId then Some candidate
            else nextForSelected_loop selectedTenantId steps' (i + 1)
        | None => nextForSelected_loop selectedTenantId steps' (i + 1)
        end
  end.

(** [if (!selectedTenantId) return null]: the empty string is falsy. *)
Definition nextForSelected (selectedTenantId : string) : option Date :=
  if String.eqb selectedTenantId EmptyString then None
  else nextForSelected_loop selectedTenantId 365 0.

End Rotation.

(** The constants of the source. *)
Definition THURSDAY : Z := 4.
Definition WEDNESDAY : Z := 3.

Definition TENANTS : list Tenant :=
  [ mkTenant "1" "Basser";
    mkTenant "2" "Berman";
    mkTenant "3" "Galet";
    mkTenant "4" "Leshinsky";
    mkTenant "5" "Vale" ].

Definition ROTATION_START : Date := newDate 2025 7 13.

(** BinDuty.jsx: duty on Thursdays. *)
Module Thursday.
Definition getAssigneeForDate (tz : TimeZone) : Date -> option Tenant :=
  getAssigneeForDate tz TENANTS ROTATION_START THURSDAY.
Definition twelveWeeks (tz : TimeZone) : Date -> list Entry.t :=
  twelveWeeks tz TENANTS ROTATION_START THURSDAY.
Definition nextForSelected (tz : TimeZone) : Date -> string -> option Date :=
  nextForSelected tz TENANTS ROTATION_START THURSDAY.
End Thursday.

(** The Wednesday variant ([getDay() !== 3]). *)
Module Wednesday.
Definition getAssigneeForDate (tz : TimeZone) : Date -> option Tenant :=
  getAssigneeForDate tz TENANTS ROTATION_START WEDNESDAY.
Definition twelveWeeks (tz : TimeZone) : Date -> list Entry.t :=
  twelveWeeks tz TENANTS ROTATION_START WEDNESDAY.
Definition nextForSelected (tz : TimeZone) : Date -> string -> option Date :=
  nextForSelected tz TENANTS ROTATION_START WEDNESDAY.
End Wednesday.

(** ** The month grid *)

(** [for (let i = 0; i < startWeekday; i++)]. *)
Definition leadingDays (year month startWeekday : Z) : list Cell.t :=
  map (fun i : nat =>
         let d := newDate year month (1 - (startWeekday - Z.of_nat i)) in
         Cell.make d false)
      (seq 0 (Z.to_nat startWeekday)).

(** [for (let day = 1; day <= daysInMonth; day++)]. *)
Definition currentDays (year month daysInMonth : Z) : list Cell.t :=
  map (fun day : nat => Cell.make (newDate year month (Z.of_nat day)) true)
      (seq 1 (Z.to_nat daysInMonth)).

(** [while (grid.length < 42)]: each pass pushes one cell, so the loop
    makes [42 - grid.length] passes.  [grid[grid.length - 1].date] throws
    on an empty grid: [None]. *)
Fixpoint trailingDays (passes : nat) (grid : list Cell.t)
  : option (list Cell.t) :=
  match passes with
  | O => Some grid
  | S passes' =>
      match nth_error grid (List.length grid - 1) with
      | None => None
      | Some c =>
          let last := Cell.date c in
          trailingDays passes'
            (grid ++ [Cell.make (newDate (getFullYear last) (getMonth last)
                                         (getDate last + 1)) false])
      end
  end.

Definition buildMonthGrid (anchor : Date) : option (list Cell.t) :=
  let year := getFullYear anchor in
  let month := getMonth anchor in
  let firstOfMonth := newDate year month 1 in
  let startWeekday := getDay firstOfMonth in
  let daysInMonth := getDate (newDate year (month + 1) 0) in
  let grid :=
    leadingDays year month startWeekday ++ currentDays year month daysInMonth in
  trailingDays (42 - List.length grid) grid.

(** ** The rest of the component

    What the component derives besides: the upcoming list, the selected
    tenant, and what [CalendarGrid] computes for each cell of the month
    grid. *)

Section Views.

Variable tz : TimeZone.
Variable TENANTS : list Tenant.
Variable ROTATION_START : Date.
Variable DUTY_DAY : Z.
Variable today : Date.

(** [for (let i = 0; i < 60; i++)]: the scan of [upcoming] has no
    [break]. *)
Fixpoint upcoming_loop (steps : nat) (i : Z)
    (list : Datatypes.list Entry.t) : Datatypes.list Entry.t :=
  match steps with
  | O => list
  | S steps' =>
      let candidate := addDays today i in
      if getDay candidate =? DUTY_DAY then
        upcoming_loop steps' (i + 1)
          (list ++ [Entry.make candidate
                      (getAssigneeForDate tz TENANTS ROTATION_START DUTY_DAY
                         candidate)])
      else upcoming_loop steps' (i + 1) list
  end.

Definition upcoming : list Entry.t := upcoming_loop 60 0 [].

(** [TENANTS.find((t) => t.id === selectedTenantId) || null]. *)
Definition selectedTenant (selectedTenantId : string) : option Tenant :=
  find (fun t => String.eqb (id t) selectedTenantId) TENANTS.

Definition todaysAssignee : option Tenant :=
  getAssigneeForDate tz TENANTS ROTATION_START DUTY_DAY today.

End Views.

(** What [CalendarGrid] computes for a cell before it renders it. *)
Module CellView.
Record t : Type :=
  make { date : Date; inMonth : bool; who : option Tenant;
         isTodayCell : bool; isHighlighted : bool }.
End CellView.

(** [highlightTenantId={selectedTenantId || null}]: the empty string
    becomes [null]. *)
Definition highlightTenantIdOf (selectedTenantId : string) : option string :=
  if String.eqb selectedTenantId EmptyString then None
  else Some selectedTenantId.

(** [highlightTenantId && who && who.id === highlightTenantId], as the
    condition that the component tests. *)
Definition isHighlightedCell (highlightTenantId : option string)
    (who : option Tenant) : bool :=
  match highlightTenantId with
  | None => false
  | Some h =>
      if String.eqb h EmptyString then false
      else match who with
           | None => false
           | Some w => String.eqb (id w) h
           end
  end.

(** [grid.map(({ date, inMonth }) => ...)] in [CalendarGrid], up to the
    values it computes; [today] is [toLocalMidnight(new Date())] there. *)
Definition CalendarGrid (today monthDate : Date)
    (getAssigneeForDate : Date -> option Tenant)
    (highlightTenantId : option string) : option (list CellView.t) :=
  match buildMonthGrid monthDate with
  | None => None
  | Some grid =>
      Some (map (fun c : Cell.t =>
                   let date := Cell.date c in
                   let who := getAssigneeForDate date in
                   let isTodayCell := isSameDay date today in
                   let isHighlighted := isHighlightedCell highlightTenantId who in
                   CellView.make date (Cell.inMonth c) who isTodayCell
                                 isHighlighted)
                grid)
  end.

(* ================================================================== *)
(** * Part III: the vocabulary of the properties                       *)
(* ================================================================== *)

(** The number of days of month [m] (0..11) of year [y]: from the day the
    month starts to the day the next one starts. *)
Definition daysOfMonth (y m : Z) : Z :=
  monthStart (m + 1) (LeapOfYear y) - monthStart m (LeapOfYear y).

(** A date whose year the constructor takes as it is: [MakeFullYear]
    leaves it alone. *)
Definition plainYear (d : Date) : Prop := ~ (0 <= getFullYear d <= 99).

(** An anchor from the year 2000 on: later than every date that the
    constructor moves into the years 1900 to 1999. *)
Definition recentAnchor (a : Date) : Prop := DayFromYear 2000 <= localDay a.

(** The week of the rotation a date falls in. *)
Definition weeksElapsed (tz : TimeZone) (anchor d : Date) : Z :=
  Z.max 0 (daysBetween tz anchor d) / 7.

(** The assignees of [tenants.length] consecutive duty occurrences from
    [start], each seven days after the one before: the enumeration that
    the complete-cycle property speaks of. *)
Definition consecutiveAssignees (tz : TimeZone) (tenants : list Tenant)
    (anchor : Date) (duty : Z) (start : Date) : list (option Tenant) :=
  map (fun k : nat =>
         getAssigneeForDate tz tenants anchor duty
           (addDays start (7 * Z.of_nat k)))
      (seq 0 (List.length tenants)).

(** The entry that the scans push for the day [i] days after [today]. *)
Definition entryAt (tz : TimeZone) (tenants : list Tenant) (anchor : Date)
    (duty : Z) (today : Date) (i : Z) : Entry.t :=
  Entry.make (addDays today i)
             (getAssigneeForDate tz tenants anchor duty (addDays today i)).

(** The number of days from [today] to the first duty weekday. *)
Definition firstOffset (duty : Z) (today : Date) : Z :=
  (duty - getDay today) mod 7.

(** [c] is a duty day whose assignee has the identifier [sel]. *)
Definition turnOf (tz : TimeZone) (tenants : list Tenant) (anchor : Date)
    (duty : Z) (sel : string) (c : Date) : Prop :=
  getDay c = duty
  /\ exists who, getAssigneeForDate tz tenants anchor duty c = Some who
                 /\ id who = sel.

(** The cell that one pass of the trailing loop pushes after [c]. *)
Definition nextCell (c : Cell.t) : Cell.t :=
  let last := Cell.date c in
  Cell.make (newDate (getFullYear last) (getMonth last) (getDate last + 1)) false.

(** The cells that [n] passes push after [c]. *)
Fixpoint trail (n : nat) (c : Cell.t) : list Cell.t :=
  match n with
  | O => []
  | S n' => nextCell c :: trail n' (nextCell c)
  end.

(** Two time zones.  [utcZone] has no offset.  [easternZone] is five
    hours behind UTC and four in the summer half of the year: its local
    midnights are 23, 24 or 25 hours apart. *)
Definition utcZone : TimeZone :=
  {| UTC := fun t : Z => t;
     UTC_midnights := ltac:(intros a b; unfold msPerDay; lia) |}.

Definition easternUTC (t : Z) : Z :=
  let day := DayWithinYear (t / msPerDay) in
  t + (if (70 <=? day) && (day <? 300) then 4 else 5) * 3600000.

Definition easternZone : TimeZone :=
  {| UTC := easternUTC;
     UTC_midnights :=
       ltac:(intros a b; unfold easternUTC; unfold msPerDay at 5;
             destruct (_ && _), (_ && _); unfold msPerDay; lia) |}.

(* ================================================================== *)
(** * Part IV: the calendar of Part I is the Gregorian calendar       *)
(* ================================================================== *)

Module CalendarFacts.

Ltac divmod := Z.div_mod_to_equations; lia.

Ltac split_ifs :=
  repeat match goal with
    | |- context [if ?c then _ else _] => destruct c eqn:?
    | H : context [if ?c then _ else _] |- _ => destruct c eqn:?
    end.

Ltac bools :=
  repeat match goal with
    | H : (_ <? _) = true |- _ => apply Z.ltb_lt in H
    | H : (_ <? _) = false |- _ => apply Z.ltb_ge in H
    | H : (_ <=? _) = true |- _ => apply Z.leb_le in H
    | H : (_ <=? _) = false |- _ => apply Z.leb_gt in H
    | H : (_ =? _) = true |- _ => apply Z.eqb_eq in H
    | H : (_ =? _) = false |- _ => apply Z.eqb_neq in H
    | H : negb _ = true |- _ => apply negb_true_iff in H
    | H : negb _ = false |- _ => apply negb_false_iff in H
    | H : (_ && _)%bool = true |- _ => apply andb_true_iff in H; destruct H
    end.

(** The twelve cases of a month number. *)
Ltac month_cases m C :=
  assert (C : m = 0 \/ m = 1 \/ m = 2 \/ m = 3 \/ m = 4 \/ m = 5 \/ m = 6
              \/ m = 7 \/ m = 8 \/ m = 9 \/ m = 10 \/ m = 11) by lia.

Lemma DaysInYear_cases y : DaysInYear y = 365 \/ DaysInYear y = 366.
Proof. unfold DaysInYear; split_ifs; auto. Qed.

Lemma LeapOfYear_cases y : LeapOfYear y = 0 \/ LeapOfYear y = 1.
Proof. unfold LeapOfYear; split_ifs; auto. Qed.

Lemma DaysInYear_leap y : DaysInYear y = 365 + LeapOfYear y.
Proof.
  unfold LeapOfYear. destruct (DaysInYear_cases y) as [E | E]; rewrite E; reflexivity.
Qed.

(** A year is as long as the distance between two first days. *)
Lemma DayFromYear_succ y : DayFromYear (y + 1) = DayFromYear y + DaysInYear y.
Proof.
  unfold DayFromYear, DaysInYear; split_ifs; bools; divmod.
Qed.

Lemma DayFromYear_mono a b : a <= b -> DayFromYear a <= DayFromYear b.
Proof. unfold DayFromYear; intros; divmod. Qed.

(** [YearFromDay n] is a year that holds day [n] ... *)
Lemma YearFromDay_spec n :
  DayFromYear (YearFromDay n) <= n < DayFromYear (YearFromDay n + 1).
Proof.
  unfold YearFromDay.
  set (y0 := 1970 + 400 * n / 146097).
  assert (H : DayFromYear (y0 - 1) <= n < DayFromYear (y0 + 2))
    by (unfold DayFromYear, y0; divmod).
  destruct (Z.ltb_spec n (DayFromYear y0)).
  - replace (y0 - 1 + 1) with y0 by lia. lia.
  - destruct (Z.leb_spec (DayFromYear (y0 + 1)) n).
    + replace (y0 + 1 + 1) with (y0 + 2) by lia. lia.
    + lia.
Qed.

(** ... and the only one: it is the largest [y] with
    [DayFromYear y <= n]. *)
Lemma YearFromDay_unique n y :
  DayFromYear y <= n < DayFromYear (y + 1) -> YearFromDay n = y.
Proof.
  intros Hy. pose proof (YearFromDay_spec n) as Hs.
  destruct (Z.lt_trichotomy (YearFromDay n) y) as [Hlt | [Heq | Hgt]]; auto.
  - pose proof (DayFromYear_mono (YearFromDay n + 1) y ltac:(lia)). lia.
  - pose proof (DayFromYear_mono (y + 1) (YearFromDay n) ltac:(lia)). lia.
Qed.

Lemma YearFromDay_largest n y : DayFromYear y <= n -> y <= YearFromDay n.
Proof.
  intros Hy. pose proof (YearFromDay_spec n) as Hs.
  destruct (Z_le_gt_dec y (YearFromDay n)); auto.
  pose proof (DayFromYear_mono (YearFromDay n + 1) y ltac:(lia)). lia.
Qed.

Lemma InLeapYear_eq n : InLeapYear n = LeapOfYear (YearFromDay n).
Proof. reflexivity. Qed.

Lemma DayWithinYear_range n : 0 <= DayWithinYear n < 365 + InLeapYear n.
Proof.
  unfold DayWithinYear. rewrite InLeapYear_eq, <- DaysInYear_leap.
  pose proof (YearFromDay_spec n) as Hs.
  rewrite DayFromYear_succ in Hs. lia.
Qed.

Lemma MonthFromDay_range n : 0 <= MonthFromDay n <= 11.
Proof. unfold MonthFromDay; split_ifs; lia. Qed.

(** The day of the month lies within its month. *)
Lemma DateFromDay_range n :
  1 <= DateFromDay n <= daysOfMonth (YearFromDay n) (MonthFromDay n).
Proof.
  unfold DateFromDay, daysOfMonth. rewrite <- InLeapYear_eq.
  pose proof (DayWithinYear_range n) as Hd.
  destruct (LeapOfYear_cases (YearFromDay n)) as [E | E];
    rewrite InLeapYear_eq in *; rewrite E in *;
    unfold MonthFromDay; rewrite InLeapYear_eq, E;
    split_ifs; bools; cbn; lia.
Qed.

Lemma daysOfMonth_range y m : 0 <= m <= 11 -> 28 <= daysOfMonth y m <= 31.
Proof.
  intros Hm. unfold daysOfMonth. month_cases m C.
  destruct (LeapOfYear_cases y) as [E | E]; rewrite E;
    repeat (destruct C as [-> | C]); subst; cbn; lia.
Qed.

(** Every month starts within its year, at least 31 days before the
    year ends; every month but December at least 61 days before. *)
Lemma monthStart_bounds y m :
  0 <= m <= 11 ->
  0 <= monthStart m (LeapOfYear y)
  /\ monthStart m (LeapOfYear y) + 31 <= 365 + LeapOfYear y
  /\ (m <= 10 -> monthStart m (LeapOfYear y) + 61 <= 365 + LeapOfYear y).
Proof.
  intros Hm. month_cases m C.
  destruct (LeapOfYear_cases y) as [E | E]; rewrite E;
    repeat (destruct C as [-> | C]); subst; cbn; lia.
Qed.

Lemma DateFromDay_bounds n : 1 <= DateFromDay n <= 31.
Proof.
  pose proof (DateFromDay_range n).
  pose proof (daysOfMonth_range (YearFromDay n) _ (MonthFromDay_range n)). lia.
Qed.

(** [MakeDay] on months 0..11. *)
Lemma MakeDay_plain y m d :
  0 <= m <= 11 ->
  MakeDay y m d = DayFromYear y + monthStart m (LeapOfYear y) + d - 1.
Proof.
  intros Hm. unfold MakeDay.
  rewrite (Z.div_small m 12), (Z.mod_small m 12) by lia.
  rewrite Z.add_0_r. reflexivity.
Qed.

(** Making a day from the fields of day [n], with the day of the month
    moved by [k], gives day [n + k]: [MakeDay] inverts the field
    accessors and counts days. *)
Lemma MakeDay_fields n k :
  MakeDay (YearFromDay n) (MonthFromDay n) (DateFromDay n + k) = n + k.
Proof.
  rewrite MakeDay_plain by apply MonthFromDay_range.
  unfold DateFromDay, DayWithinYear. rewrite InLeapYear_eq. lia.
Qed.

Lemma WeekDay_range n : 0 <= WeekDay n <= 6.
Proof. unfold WeekDay. pose proof (Z.mod_pos_bound (n + 4) 7). lia. Qed.

Lemma WeekDay_add n k : WeekDay (n + k) = (WeekDay n + k) mod 7.
Proof.
  unfold WeekDay. rewrite Zplus_mod_idemp_l. f_equal. lia.
Qed.

(** The fields of a day made from a year, a month 0..11 and a day of
    that month are that year, month and day. *)
Lemma fields_MakeDay y m d :
  0 <= m <= 11 -> 1 <= d <= daysOfMonth y m ->
  YearFromDay (MakeDay y m d) = y
  /\ MonthFromDay (MakeDay y m d) = m
  /\ DateFromDay (MakeDay y m d) = d.
Proof.
  intros Hm Hd. rewrite MakeDay_plain by assumption.
  unfold daysOfMonth in Hd.
  remember (DayFromYear y + monthStart m (LeapOfYear y) + d - 1) as n eqn:En.
  month_cases m C.
  assert (Hb : monthStart m (LeapOfYear y) <= monthStart m (LeapOfYear y) + d - 1
               < monthStart (m + 1) (LeapOfYear y)) by lia.
  assert (Hr : 0 <= monthStart m (LeapOfYear y)
               /\ monthStart (m + 1) (LeapOfYear y) <= 365 + LeapOfYear y).
  { destruct (LeapOfYear_cases y) as [E | E]; rewrite E;
      repeat (destruct C as [-> | C]); try subst m; cbn; lia. }
  assert (Hy : YearFromDay n = y).
  { apply YearFromDay_unique. rewrite DayFromYear_succ, DaysInYear_leap. lia. }
  assert (Hw : DayWithinYear n = monthStart m (LeapOfYear y) + d - 1)
    by (unfold DayWithinYear; rewrite Hy; lia).
  assert (Hmo : MonthFromDay n = m).
  { unfold MonthFromDay. rewrite Hw, InLeapYear_eq, Hy.
    clear Hw Hy En Hr Hd.
    generalize dependent (monthStart m (LeapOfYear y) + d - 1). intros w Hb.
    destruct (LeapOfYear_cases y) as [E | E]; rewrite E in *;
      repeat (destruct C as [-> | C]); try subst m; cbn in Hb;
      split_ifs; bools; lia. }
  repeat split; auto.
  unfold DateFromDay. rewrite Hmo, Hw, InLeapYear_eq, Hy. lia.
Qed.

(** The day argument of [MakeDay] counts days. *)
Lemma MakeDay_day y m d k : MakeDay y m (d + k) = MakeDay y m d + k.
Proof. unfold MakeDay. lia. Qed.

(** The month argument carries into the year. *)
Lemma MakeDay_carry y m d : MakeDay y m d = MakeDay (y + m / 12) (m mod 12) d.
Proof.
  pose proof (Z.mod_pos_bound m 12 ltac:(lia)).
  rewrite (MakeDay_plain (y + m / 12)) by lia. reflexivity.
Qed.

(** The first of the next month comes a month's length after the first
    of this month. *)
Lemma MakeDay_next_month y m d :
  MakeDay y (m + 1) d = MakeDay y m d + daysOfMonth (y + m / 12) (m mod 12).
Proof.
  unfold MakeDay, daysOfMonth.
  pose proof (Z.mod_pos_bound m 12 ltac:(lia)) as Hr.
  destruct (Z.eq_dec (m mod 12) 11) as [E | E].
  - assert ((m + 1) / 12 = m / 12 + 1 /\ (m + 1) mod 12 = 0) as [-> ->]
        by divmod.
    rewrite E, Z.add_assoc, DayFromYear_succ, DaysInYear_leap. cbn.
    destruct (LeapOfYear_cases (y + m / 12)) as [L | L]; rewrite L; lia.
  - assert ((m + 1) / 12 = m / 12 /\ (m + 1) mod 12 = m mod 12 + 1) as [-> ->]
        by divmod.
    lia.
Qed.

(** The calendar on known days: the anchor of the source is a Wednesday,
    the epoch a Thursday; February has 29 days in 2024 and 2000, 28 in
    2025 and 1900. *)
Example calendar_known_days :
  (YearFromDay 20313, MonthFromDay 20313, DateFromDay 20313, WeekDay 20313)
  = (2025, 7, 13, 3)
  /\ (YearFromDay 0, MonthFromDay 0, DateFromDay 0, WeekDay 0) = (1970, 0, 1, 4)
  /\ MakeDay 2025 7 13 = 20313
  /\ (daysOfMonth 2024 1, daysOfMonth 2000 1, daysOfMonth 2025 1,
      daysOfMonth 1900 1) = (29, 29, 28, 28).
Proof. repeat split; reflexivity. Qed.

End CalendarFacts.

Import CalendarFacts.

(* ================================================================== *)
(** * Part V: the utilities                                           *)
(* ================================================================== *)

Lemma MS_PER_DAY_eq : MS_PER_DAY = msPerDay.
Proof. reflexivity. Qed.

Lemma MakeFullYear_plain y : ~ (0 <= y <= 99) -> MakeFullYear y = y.
Proof.
  intros H. unfold MakeFullYear.
  destruct (0 <=? y) eqn:A, (y <=? 99) eqn:B; cbn; auto. bools; lia.
Qed.

Lemma MakeFullYear_legacy y : 0 <= y <= 99 -> MakeFullYear y = 1900 + y.
Proof.
  intros H. unfold MakeFullYear.
  destruct (0 <=? y) eqn:A, (y <=? 99) eqn:B; cbn; auto; bools; lia.
Qed.

(** [addDays] moves the calendar day by [n] and keeps the time of day,
    for every date and every [n]. *)
Lemma addDays_day d n : addDays d n = mkDate (localDay d + n) (timeInDay d).
Proof.
  unfold addDays, setDate, getFullYear, getMonth, getDate.
  rewrite MakeDay_fields. reflexivity.
Qed.

Lemma getDay_addDays d n : getDay (addDays d n) = (getDay d + n) mod 7.
Proof. rewrite addDays_day. unfold getDay. cbn. apply WeekDay_add. Qed.

Lemma getDay_range d : 0 <= getDay d <= 6.
Proof. apply WeekDay_range. Qed.

(** Rebuilding a date from its own fields, the day of the month moved by
    [k]: the same day moved by [k], at midnight, unless the constructor
    re-reads the year. *)
Lemma newDate_fields d k :
  plainYear d ->
  newDate (getFullYear d) (getMonth d) (getDate d + k) = mkDate (localDay d + k) 0.
Proof.
  intros H. unfold newDate. rewrite MakeFullYear_plain by exact H.
  unfold getFullYear, getMonth, getDate. rewrite MakeDay_fields. reflexivity.
Qed.

Lemma toLocalMidnight_plain d :
  plainYear d -> toLocalMidnight d = mkDate (localDay d) 0.
Proof.
  intros H. unfold toLocalMidnight.
  replace (getDate d) with (getDate d + 0) by lia.
  rewrite newDate_fields by exact H. f_equal. lia.
Qed.

Lemma timeInDay_toLocalMidnight d : timeInDay (toLocalMidnight d) = 0.
Proof. reflexivity. Qed.

(** Rounding the quotient recovers the number of days between two local
    midnights, whatever the zone adds or removes in between. *)
Lemma daysBetween_days tz a b :
  daysBetween tz a b
  = localDay (toLocalMidnight b) - localDay (toLocalMidnight a).
Proof.
  unfold daysBetween, getTime. rewrite !timeInDay_toLocalMidnight, !Z.add_0_r.
  set (x := localDay (toLocalMidnight a)). set (y := localDay (toLocalMidnight b)).
  pose proof (UTC_midnights tz x y) as H.
  unfold Math_round_div. rewrite MS_PER_DAY_eq.
  set (e := UTC tz (y * msPerDay) - UTC tz (x * msPerDay) - (y - x) * msPerDay) in *.
  replace (UTC tz (y * msPerDay) - UTC tz (x * msPerDay))
    with ((y - x) * msPerDay + e) by (unfold e; lia).
  unfold msPerDay in *.
  symmetry. apply (Z.div_unique _ _ _ (2 * e + 86400000)); lia.
Qed.

(* ================================================================== *)
(** * Part VI: the assignment                                           *)
(* ================================================================== *)

Lemma index_nth_error {A} (a : list A) (i : Z) :
  0 <= i -> index a i = nth_error a (Z.to_nat i).
Proof. intros H. unfold index. destruct (Z.ltb_spec i 0); auto; lia. Qed.

Lemma index_In {A} (a : list A) (i : Z) (x : A) : index a i = Some x -> In x a.
Proof.
  unfold index. destruct (i <? 0); [discriminate |]. apply nth_error_In.
Qed.

Section Assignment.

Variable tz : TimeZone.
Variable tenants : list Tenant.
Variable anchor : Date.
Variable duty : Z.

Local Abbreviation assignee := (getAssigneeForDate tz tenants anchor duty).
Local Abbreviation count := (Z.of_nat (List.length tenants)).
Local Abbreviation weeks := (weeksElapsed tz anchor).

Lemma weeksElapsed_nonneg d : 0 <= weeks d.
Proof. unfold weeksElapsed. apply Z.div_pos; lia. Qed.

Lemma assignee_off d : getDay d <> duty -> assignee d = None.
Proof.
  intros H. unfold getAssigneeForDate.
  destruct (Z.eqb_spec (getDay d) duty); [contradiction | reflexivity].
Qed.

Lemma assignee_on d :
  getDay d = duty -> assignee d = index tenants (Z.rem (weeks d) count).
Proof.
  intros H. unfold getAssigneeForDate.
  destruct (Z.eqb_spec (getDay d) duty); [reflexivity | contradiction].
Qed.

Lemma rem_is_mod d :
  tenants <> [] -> Z.rem (weeks d) count = weeks d mod count.
Proof.
  intros H. apply Z.rem_mod_nonneg. apply weeksElapsed_nonneg.
  destruct tenants; [contradiction | cbn [List.length]; lia].
Qed.

Lemma assignee_on_mod d :
  tenants <> [] -> getDay d = duty ->
  assignee d = nth_error tenants (Z.to_nat (weeks d mod count)).
Proof.
  intros Hne H. rewrite assignee_on, rem_is_mod by assumption.
  apply index_nth_error. apply Z.mod_pos_bound.
  destruct tenants; [contradiction | cbn [List.length]; lia].
Qed.

Lemma assignee_on_some d :
  tenants <> [] -> getDay d = duty -> exists t, assignee d = Some t /\ In t tenants.
Proof.
  intros Hne H. rewrite assignee_on_mod by assumption.
  assert (Hlt : (Z.to_nat (weeks d mod count) < List.length tenants)%nat).
  { pose proof (Z.mod_pos_bound (weeks d) count) as Hb.
    destruct tenants; [contradiction | cbn [List.length] in *; lia]. }
  apply nth_error_Some in Hlt.
  destruct (nth_error tenants _) as [t |] eqn:E; [| contradiction].
  exists t. split; auto. eapply nth_error_In; eauto.
Qed.

Lemma assignee_In d t : assignee d = Some t -> In t tenants.
Proof.
  unfold getAssigneeForDate. destruct (negb _); [discriminate |].
  apply index_In.
Qed.

End Assignment.

(** ** Anchors from the year 2000 on, and the years the constructor re-reads *)

Lemma ROTATION_START_day : localDay ROTATION_START = 20313.
Proof. reflexivity. Qed.

Lemma ROTATION_START_recent : recentAnchor ROTATION_START.
Proof. unfold recentAnchor. vm_compute. discriminate. Qed.

(** From the year 100 on, dates have a plain year. *)
Lemma plainYear_after d : DayFromYear 100 <= localDay d -> plainYear d.
Proof.
  intros H. unfold plainYear, getFullYear.
  pose proof (YearFromDay_largest _ _ H). lia.
Qed.

Lemma plainYear_recent d : 0 <= localDay d -> plainYear d.
Proof.
  intros H. apply plainYear_after.
  assert (E : DayFromYear 100 = -683003) by reflexivity. lia.
Qed.

Lemma recentAnchor_day a : recentAnchor a -> 10957 <= localDay a.
Proof. intros H. exact H. Qed.

Lemma recentAnchor_plain a : recentAnchor a -> plainYear a.
Proof.
  intros H. apply plainYear_recent. apply recentAnchor_day in H. lia.
Qed.

(** Truncating a date of the years 0 to 99 lands in the twentieth
    century. *)
Lemma toLocalMidnight_legacy d :
  0 <= getFullYear d <= 99 ->
  DayFromYear 1900 <= localDay (toLocalMidnight d) < DayFromYear 2000.
Proof.
  intros H. unfold toLocalMidnight, newDate. cbn [localDay].
  rewrite MakeFullYear_legacy by exact H.
  pose proof (MonthFromDay_range (localDay d)) as Hm.
  pose proof (DateFromDay_range (localDay d)) as Hd.
  fold (getMonth d) in Hm, Hd. fold (getDate d) in Hd.
  fold (getFullYear d) in Hd.
  rewrite MakeDay_plain by exact Hm.
  set (y := 1900 + getFullYear d).
  pose proof (monthStart_bounds y (getMonth d) Hm) as Hs.
  pose proof (daysOfMonth_range (getFullYear d) (getMonth d) Hm) as Hr.
  pose proof (DayFromYear_mono 1900 y ltac:(lia)) as H1.
  pose proof (DayFromYear_mono (y + 1) 2000 ltac:(lia)) as H2.
  rewrite DayFromYear_succ, DaysInYear_leap in H2. lia.
Qed.

(** Between two dates of plain years [daysBetween] is the calendar
    distance. *)
Lemma daysBetween_plain tz a b :
  plainYear a -> plainYear b -> daysBetween tz a b = localDay b - localDay a.
Proof.
  intros Ha Hb. rewrite daysBetween_days, !toLocalMidnight_plain by assumption.
  reflexivity.
Qed.

(** From an anchor of the year 2000 or later, a date of the years 0 to 99
    counts as a date before the anchor. *)
Lemma daysBetween_legacy tz a d :
  recentAnchor a -> 0 <= getFullYear d <= 99 -> daysBetween tz a d < 0.
Proof.
  intros Ha H. rewrite daysBetween_days.
  rewrite (toLocalMidnight_plain a) by (apply recentAnchor_plain; exact Ha).
  pose proof (toLocalMidnight_legacy d H) as Hl. cbn [localDay].
  unfold recentAnchor in Ha. lia.
Qed.

(** Before such an anchor, [daysBetween] is negative for every date. *)
Lemma daysBetween_before_anchor tz a d :
  recentAnchor a -> localDay d < localDay a -> daysBetween tz a d < 0.
Proof.
  intros Ha H. pose proof (recentAnchor_plain a Ha) as Hp.
  destruct (Z_le_dec 0 (getFullYear d)) as [H0 |];
    [destruct (Z_le_dec (getFullYear d) 99) as [H1 |] |].
  - apply daysBetween_legacy; [exact Ha | lia].
  - rewrite daysBetween_plain by (assumption || (unfold plainYear; lia)). lia.
  - rewrite daysBetween_plain by (assumption || (unfold plainYear; lia)). lia.
Qed.

(** On or after it the assignment follows the calendar. *)
Lemma assignee_after_anchor tz tenants a duty d :
  recentAnchor a -> getDay d = duty -> localDay a <= localDay d ->
  getAssigneeForDate tz tenants a duty d
  = index tenants (Z.rem ((localDay d - localDay a) / 7)
                         (Z.of_nat (List.length tenants))).
Proof.
  intros Ha Hd Hle. pose proof (recentAnchor_day a Ha) as Hr.
  rewrite assignee_on by exact Hd. unfold weeksElapsed.
  rewrite daysBetween_plain
    by (apply recentAnchor_plain; exact Ha) || (apply plainYear_recent; lia).
  rewrite Z.max_r by lia. reflexivity.
Qed.

(** C1.  For every date [d] and every configuration (tenants, anchor, duty
    weekday) with at least one tenant, [getAssigneeForDate] returns none
    exactly when the weekday of [d] is not the duty weekday, and
    otherwise returns the tenant at position
    [floor(max(0, daysBetween(anchor, d)) / 7) mod tenants.length]. *)
Theorem getAssigneeForDate_correct :
  forall (tz : TimeZone) (tenants : list Tenant) (anchor : Date) (duty : Z)
         (d : Date),
    tenants <> [] ->
    (getAssigneeForDate tz tenants anchor duty d = None <-> getDay d <> duty)
    /\ (getDay d = duty ->
        getAssigneeForDate tz tenants anchor duty d
        = nth_error tenants
            (Z.to_nat ((Z.max 0 (daysBetween tz anchor d) / 7)
                       mod Z.of_nat (List.length tenants)))).
Proof.
  intros tz tenants anchor duty d Hne. split.
  - split.
    + intros HN E.
      destruct (assignee_on_some tz tenants anchor duty d Hne E) as [t [Ht _]].
      congruence.
    + apply assignee_off.
  - intros E. apply (assignee_on_mod tz tenants anchor duty d Hne E).
Qed.

Lemma getAssigneeForDate_correct_witness :
  TENANTS <> []
  /\ (getAssigneeForDate easternZone TENANTS ROTATION_START WEDNESDAY
        (newDate 2025 7 27) = None
      <-> getDay (newDate 2025 7 27) <> WEDNESDAY).
Proof.
  assert (H : TENANTS <> []) by discriminate.
  split; [exact H |].
  exact (proj1 (getAssigneeForDate_correct easternZone TENANTS ROTATION_START
                  WEDNESDAY (newDate 2025 7 27) H)).
Defined.

(** ** Before the anchor *)

(** With any anchor from the year 2000 on, a duty day before the anchor is
    the first tenant's. *)
Lemma first_tenant_before_anchor tz tenants a duty d :
  recentAnchor a -> getDay d = duty -> localDay d < localDay a ->
  getAssigneeForDate tz tenants a duty d = nth_error tenants 0.
Proof.
  intros Ha Hd Hb. rewrite assignee_on by exact Hd. unfold weeksElapsed.
  pose proof (daysBetween_before_anchor tz a d Ha Hb) as Hn.
  rewrite Z.max_l by lia. reflexivity.
Qed.

(** C2.  With the anchor of the source (13 August 2025), every date that
    falls on the duty weekday and is strictly before the anchor resolves
    to the first tenant, whatever the tenants and the duty weekday; and in
    the Wednesday configuration 6 August 2025 resolves to Basser. *)
Theorem before_anchor_first_tenant :
  forall tz : TimeZone,
    (forall (tenants : list Tenant) (duty : Z) (d : Date),
        getDay d = duty ->
        localDay d < localDay ROTATION_START ->
        getAssigneeForDate tz tenants ROTATION_START duty d = nth_error tenants 0)
    /\ Wednesday.getAssigneeForDate tz (newDate 2025 7 6)
       = Some (mkTenant "1" "Basser").
Proof.
  intros tz. split.
  - intros tenants duty d. apply first_tenant_before_anchor, ROTATION_START_recent.
  - unfold Wednesday.getAssigneeForDate.
    rewrite first_tenant_before_anchor;
      [reflexivity | apply ROTATION_START_recent | reflexivity | reflexivity].
Qed.

Lemma before_anchor_first_tenant_witness :
  getDay (newDate 2025 6 31) = THURSDAY
  /\ localDay (newDate 2025 6 31) < localDay ROTATION_START
  /\ getAssigneeForDate easternZone TENANTS ROTATION_START THURSDAY
       (newDate 2025 6 31) = nth_error TENANTS 0.
Proof.
  assert (H1 : getDay (newDate 2025 6 31) = THURSDAY) by reflexivity.
  assert (H2 : localDay (newDate 2025 6 31) < localDay ROTATION_START)
    by (vm_compute; reflexivity).
  split; [exact H1 | split; [exact H2 |]].
  exact (proj1 (before_anchor_first_tenant easternZone) TENANTS THURSDAY
           (newDate 2025 6 31) H1 H2).
Defined.

(** ** The period of the rotation *)

(** With any anchor from the year 2000 on: two duty days on or after the
    anchor, a multiple of [7 * tenants.length] days apart, have the same
    assignee. *)
Lemma same_assignee_a_period_apart tz tenants a duty d1 d2 :
  recentAnchor a ->
  getDay d1 = duty -> getDay d2 = duty ->
  localDay a <= localDay d1 -> localDay a <= localDay d2 ->
  (7 * Z.of_nat (List.length tenants) | daysBetween tz d1 d2) ->
  getAssigneeForDate tz tenants a duty d1 = getAssigneeForDate tz tenants a duty d2.
Proof.
  intros Ha H1 H2 A1 A2 [k Hk].
  rewrite !assignee_after_anchor by assumption.
  pose proof (recentAnchor_day a Ha) as Hr.
  rewrite daysBetween_plain in Hk by (apply plainYear_recent; lia).
  set (n := Z.of_nat (List.length tenants)) in *.
  assert (Hn : 0 <= n) by (unfold n; lia).
  assert (E : (localDay d2 - localDay a) / 7
              = (localDay d1 - localDay a) / 7 + k * n).
  { replace (localDay d2 - localDay a)
      with ((localDay d1 - localDay a) + (k * n) * 7) by lia.
    apply Z.div_add. lia. }
  rewrite E.
  set (w := (localDay d1 - localDay a) / 7) in *.
  assert (Hw : 0 <= w) by (unfold w; apply Z.div_pos; lia).
  assert (Hw2 : 0 <= w + k * n) by (rewrite <- E; apply Z.div_pos; lia).
  f_equal.
  destruct (Z.eq_dec n 0) as [Z0 | Z0].
  - rewrite Z0, Z.mul_0_r, Z.add_0_r. reflexivity.
  - rewrite !Z.rem_mod_nonneg by lia. symmetry. apply Z.mod_add. exact Z0.
Qed.

(** C3.  With the anchor of the source: two dates on the duty weekday,
    both on or after the anchor, whose [daysBetween] is an exact multiple
    of [7 * tenants.length], have the same assignee. *)
Theorem rotation_periodic :
  forall (tz : TimeZone) (tenants : list Tenant) (duty : Z) (d1 d2 : Date),
    getDay d1 = duty -> getDay d2 = duty ->
    localDay ROTATION_START <= localDay d1 ->
    localDay ROTATION_START <= localDay d2 ->
    (7 * Z.of_nat (List.length tenants) | daysBetween tz d1 d2) ->
    getAssigneeForDate tz tenants ROTATION_START duty d1
    = getAssigneeForDate tz tenants ROTATION_START duty d2.
Proof.
  intros tz tenants duty d1 d2.
  apply same_assignee_a_period_apart, ROTATION_START_recent.
Qed.

Lemma rotation_periodic_witness :
  getAssigneeForDate easternZone TENANTS ROTATION_START WEDNESDAY (newDate 2025 7 20)
  = getAssigneeForDate easternZone TENANTS ROTATION_START WEDNESDAY (newDate 2025 8 24).
Proof.
  apply rotation_periodic.
  - reflexivity.
  - reflexivity.
  - vm_compute; discriminate.
  - vm_compute; discriminate.
  - exists 1. vm_compute; reflexivity.
Defined.

(** ** A full turn of the rotation *)

Lemma map_nth_error_seq {A} (l : list A) :
  map (nth_error l) (seq 0 (List.length l)) = map Some l.
Proof.
  induction l as [| x l IH]; [reflexivity |].
  cbn [List.length seq map nth_error]. f_equal.
  rewrite <- seq_shift, map_map. exact IH.
Qed.

Lemma shifted_indices_NoDup (w n : nat) :
  NoDup (map (fun k => ((w + k) mod n)%nat) (seq 0 n)).
Proof.
  apply NoDup_map_NoDup_ForallPairs; [| apply seq_NoDup].
  intros a b Ha Hb E. apply in_seq in Ha, Hb.
  assert (Hn : n <> 0%nat) by lia.
  pose proof (Nat.div_mod_eq (w + a) n) as Da.
  pose proof (Nat.div_mod_eq (w + b) n) as Db.
  rewrite E in Da.
  assert (((w + a) / n = (w + b) / n)%nat) by nia.
  nia.
Qed.

(** Counting on from any week, [n] consecutive weeks visit every position
    of a list of length [n] once. *)
Lemma shifted_indices_perm (w n : nat) :
  n <> 0%nat ->
  Permutation (map (fun k => ((w + k) mod n)%nat) (seq 0 n)) (seq 0 n).
Proof.
  intros Hn. apply NoDup_Permutation_bis.
  - apply shifted_indices_NoDup.
  - rewrite length_map. apply Nat.le_refl.
  - intros x Hx. apply in_map_iff in Hx. destruct Hx as [k [<- _]].
    apply in_seq. pose proof (Nat.mod_upper_bound (w + k) n Hn). lia.
Qed.

Lemma consecutiveAssignees_after_anchor tz tenants a duty start :
  recentAnchor a -> tenants <> [] -> getDay start = duty ->
  localDay a <= localDay start ->
  consecutiveAssignees tz tenants a duty start
  = map (nth_error tenants)
      (map (fun k => ((Z.to_nat ((localDay start - localDay a) / 7) + k)
                      mod List.length tenants)%nat)
           (seq 0 (List.length tenants))).
Proof.
  intros Ha Hne Hd Hle. unfold consecutiveAssignees. rewrite map_map.
  apply map_ext. intros k.
  assert (Hl : List.length tenants <> 0%nat) by (destruct tenants; cbn; congruence).
  rewrite assignee_after_anchor; [| exact Ha | |].
  - rewrite addDays_day. cbn [localDay].
    replace (localDay start + 7 * Z.of_nat k - localDay a)
      with ((localDay start - localDay a) + Z.of_nat k * 7) by lia.
    rewrite Z.div_add by lia.
    set (w := (localDay start - localDay a) / 7).
    assert (Hw : 0 <= w) by (unfold w; apply Z.div_pos; lia).
    rewrite Z.rem_mod_nonneg by lia.
    rewrite index_nth_error by (apply Z.mod_pos_bound; lia).
    f_equal. apply Nat2Z.inj.
    rewrite Nat2Z.inj_mod, Nat2Z.inj_add, !Z2Nat.id; try lia.
    apply Z.mod_pos_bound; lia.
  - rewrite getDay_addDays, Hd.
    replace (duty + 7 * Z.of_nat k) with (duty + Z.of_nat k * 7) by lia.
    rewrite Z.mod_add by lia. apply Z.mod_small.
    rewrite <- Hd. pose proof (getDay_range start). lia.
  - rewrite addDays_day. cbn [localDay]. lia.
Qed.

(** With any anchor from the year 2000 on: the duty days of
    [tenants.length] consecutive weeks, from a duty day on or after the
    anchor, go to the tenants, each once. *)
Lemma full_cycle_after_anchor tz tenants a duty start :
  recentAnchor a -> getDay start = duty -> localDay a <= localDay start ->
  Permutation (consecutiveAssignees tz tenants a duty start) (map Some tenants).
Proof.
  intros Ha Hd Hle.
  destruct tenants as [| t ts] eqn:E; [apply perm_nil |]. rewrite <- E.
  assert (Hne : tenants <> []) by (rewrite E; discriminate).
  rewrite consecutiveAssignees_after_anchor by assumption.
  rewrite <- map_nth_error_seq.
  apply Permutation_map, shifted_indices_perm.
  rewrite E; cbn; congruence.
Qed.

(** C4 as stated fails: from Wednesday 30 July 2025, two weeks before the
    anchor, the five consecutive Wednesdays are assigned Basser, Basser,
    Basser, Berman, Galet; Leshinsky and Vale have no turn. *)
Lemma full_cycle_fails_before_anchor :
  getDay (newDate 2025 6 30) = WEDNESDAY
  /\ consecutiveAssignees utcZone TENANTS ROTATION_START WEDNESDAY
       (newDate 2025 6 30)
     = [ Some (mkTenant "1" "Basser"); Some (mkTenant "1" "Basser");
         Some (mkTenant "1" "Basser"); Some (mkTenant "2" "Berman");
         Some (mkTenant "3" "Galet") ]
  /\ ~ Permutation
         (consecutiveAssignees utcZone TENANTS ROTATION_START WEDNESDAY
            (newDate 2025 6 30))
         (map Some TENANTS).
Proof.
  assert (E : consecutiveAssignees utcZone TENANTS ROTATION_START WEDNESDAY
                (newDate 2025 6 30)
              = [ Some (mkTenant "1" "Basser"); Some (mkTenant "1" "Basser");
                  Some (mkTenant "1" "Basser"); Some (mkTenant "2" "Berman");
                  Some (mkTenant "3" "Galet") ]) by (vm_compute; reflexivity).
  split; [reflexivity | split; [exact E |]].
  rewrite E. intros P.
  assert (I : In (Some (mkTenant "5" "Vale")) (map Some TENANTS))
    by (cbn; tauto).
  apply (Permutation_in _ (Permutation_sym P)) in I.
  cbn in I. repeat (destruct I as [I | I]; [discriminate I |]). exact I.
Qed.

(** C4, amended.  With the anchor of the source: from every starting date
    that falls on the duty weekday and is on or after the anchor, the
    assignees of [tenants.length] consecutive duty occurrences (each seven
    days after the previous) are the tenants, each exactly once. *)
Theorem rotation_full_cycle :
  forall (tz : TimeZone) (tenants : list Tenant) (duty : Z) (start : Date),
    getDay start = duty ->
    localDay ROTATION_START <= localDay start ->
    Permutation (consecutiveAssignees tz tenants ROTATION_START duty start)
                (map Some tenants).
Proof.
  intros tz tenants duty start.
  apply full_cycle_after_anchor, ROTATION_START_recent.
Qed.

Lemma rotation_full_cycle_witness :
  Permutation
    (consecutiveAssignees easternZone TENANTS ROTATION_START THURSDAY
       (newDate 2025 8 4))
    (map Some TENANTS).
Proof.
  apply rotation_full_cycle.
  - reflexivity.
  - vm_compute; discriminate.
Defined.

(** C5 as stated fails on its last pair: 17 September 2025 is five weeks
    after the anchor and five tenants rotate, so the turn is back with
    Basser, not with Leshinsky. *)
Lemma september_17_is_basser :
  Wednesday.getAssigneeForDate utcZone (newDate 2025 8 17)
  = Some (mkTenant "1" "Basser")
  /\ Wednesday.getAssigneeForDate utcZone (newDate 2025 8 17)
     <> Some (mkTenant "4" "Leshinsky").
Proof.
  assert (E : Wednesday.getAssigneeForDate utcZone (newDate 2025 8 17)
              = Some (mkTenant "1" "Basser")) by (vm_compute; reflexivity).
  split; [exact E | rewrite E; discriminate].
Qed.

(** C5, amended.  In the Wednesday configuration (anchor 13 August 2025,
    tenants Basser, Berman, Galet, Leshinsky, Vale), in every time zone:
    13 August 2025 is Basser's, 20 August Berman's, 27 August Galet's, and
    17 September Basser's again. *)
Theorem wednesday_schedule :
  forall tz : TimeZone,
    Wednesday.getAssigneeForDate tz (newDate 2025 7 13)
    = Some (mkTenant "1" "Basser")
    /\ Wednesday.getAssigneeForDate tz (newDate 2025 7 20)
       = Some (mkTenant "2" "Berman")
    /\ Wednesday.getAssigneeForDate tz (newDate 2025 7 27)
       = Some (mkTenant "3" "Galet")
    /\ Wednesday.getAssigneeForDate tz (newDate 2025 8 17)
       = Some (mkTenant "1" "Basser").
Proof.
  intros tz. unfold Wednesday.getAssigneeForDate.
  repeat split;
    (rewrite assignee_after_anchor;
     [ reflexivity | apply ROTATION_START_recent | reflexivity
     | vm_compute; discriminate ]).
Qed.

(* ================================================================== *)
(** * Part VII: the two scans                                           *)
(* ================================================================== *)

Lemma nth_error_map_seq {A} (f : nat -> A) (n i : nat) (a : A) :
  nth_error (map f (seq 0 n)) i = Some a -> (i < n)%nat /\ a = f i.
Proof.
  intros H.
  assert (Hi : (i < n)%nat).
  { assert (Hs : nth_error (map f (seq 0 n)) i <> None) by congruence.
    apply nth_error_Some in Hs. rewrite length_map, length_seq in Hs. exact Hs. }
  split; [exact Hi |].
  rewrite nth_error_map in H.
  destruct (nth_error (seq 0 n) i) as [k |] eqn:E; [| discriminate].
  apply (nth_error_nth _ _ 0%nat) in E. rewrite seq_nth in E by exact Hi.
  cbn in H. injection H as <-. subst k. reflexivity.
Qed.

Section Scans.

Variable tz : TimeZone.
Variable tenants : list Tenant.
Variable anchor : Date.
Variable duty : Z.
Variable today : Date.

Local Abbreviation assignee := (getAssigneeForDate tz tenants anchor duty).
Local Abbreviation loop12 := (twelveWeeks_loop tz tenants anchor duty today).
Local Abbreviation loop365 := (nextForSelected_loop tz tenants anchor duty today).
Local Abbreviation entry := (entryAt tz tenants anchor duty today).
Local Abbreviation offset0 := (firstOffset duty today).
Local Abbreviation turn := (turnOf tz tenants anchor duty).

Lemma firstOffset_range : 0 <= offset0 <= 6.
Proof. unfold firstOffset. pose proof (Z.mod_pos_bound (duty - getDay today) 7). lia. Qed.

Lemma getDay_at i : getDay (addDays today i) = (getDay today + i) mod 7.
Proof. apply getDay_addDays. Qed.

Lemma hit_firstOffset : 0 <= duty <= 6 -> getDay (addDays today offset0) = duty.
Proof.
  intros H. rewrite getDay_at. unfold firstOffset.
  pose proof (getDay_range today). divmod.
Qed.

Lemma miss_before_firstOffset j :
  0 <= j < offset0 -> getDay (addDays today j) <> duty.
Proof.
  rewrite getDay_at. unfold firstOffset.
  pose proof (getDay_range today) as Hg. intros Hj. divmod.
Qed.

Lemma hit_week_later i :
  getDay (addDays today i) = duty -> getDay (addDays today (i + 7)) = duty.
Proof. rewrite !getDay_at. intros H. divmod. Qed.

Lemma miss_within_week i j :
  getDay (addDays today i) = duty -> 1 <= j <= 6 ->
  getDay (addDays today (i + j)) <> duty.
Proof. rewrite !getDay_at. intros H Hj. divmod. Qed.

(** *** [twelveWeeks] *)

Lemma loop12_miss s i acc :
  getDay (addDays today i) <> duty -> loop12 (S s) i acc = loop12 s (i + 1) acc.
Proof.
  intros H. cbn [twelveWeeks_loop].
  destruct (Z.eqb_spec (getDay (addDays today i)) duty); [contradiction | reflexivity].
Qed.

Lemma loop12_hit s i acc :
  getDay (addDays today i) = duty -> List.length acc <> 11%nat ->
  loop12 (S s) i acc = loop12 s (i + 1) (acc ++ [entry i]).
Proof.
  intros H Hl. cbn [twelveWeeks_loop].
  destruct (Z.eqb_spec (getDay (addDays today i)) duty); [| contradiction].
  rewrite length_app. cbn [List.length].
  destruct (Nat.eqb_spec (List.length acc + 1) 12); [lia | reflexivity].
Qed.

Lemma loop12_last s i acc :
  getDay (addDays today i) = duty -> List.length acc = 11%nat ->
  loop12 (S s) i acc = acc ++ [entry i].
Proof.
  intros H Hl. cbn [twelveWeeks_loop].
  destruct (Z.eqb_spec (getDay (addDays today i)) duty); [| contradiction].
  rewrite length_app. cbn [List.length].
  destruct (Nat.eqb_spec (List.length acc + 1) 12); [reflexivity | lia].
Qed.

Lemma loop12_skip m : forall s i acc,
  (forall j, 0 <= j < Z.of_nat m -> getDay (addDays today (i + j)) <> duty) ->
  loop12 (m + s) i acc = loop12 s (i + Z.of_nat m) acc.
Proof.
  induction m as [| m IH]; intros s i acc H.
  - cbn [Nat.add]. f_equal. lia.
  - cbn [Nat.add]. rewrite loop12_miss.
    + rewrite IH.
      * f_equal. lia.
      * intros j Hj. replace (i + 1 + j) with (i + (1 + j)) by lia.
        apply H. lia.
    + replace i with (i + 0) at 1 by lia. apply H. lia.
Qed.

(** From a duty day with [k + 1] entries still to find, the loop finds
    them a week apart, provided enough passes are left. *)
Lemma loop12_from_hit k : forall s i acc,
  getDay (addDays today i) = duty ->
  (List.length acc + S k = 12)%nat ->
  (7 * k + 1 <= s)%nat ->
  loop12 s i acc
  = acc ++ map (fun j : nat => entry (i + 7 * Z.of_nat j)) (seq 0 (S k)).
Proof.
  induction k as [| k IH]; intros s i acc Hh Hl Hs.
  - destruct s as [| s]; [lia |].
    rewrite loop12_last by (assumption || lia).
    cbn [seq map]. do 3 f_equal. lia.
  - destruct s as [| s]; [lia |].
    rewrite loop12_hit by (assumption || lia).
    replace s with (6 + (s - 6))%nat by lia.
    rewrite loop12_skip.
    + rewrite IH.
      * rewrite <- app_assoc. f_equal. cbn [app].
        change (seq 0 (S (S k))) with (0%nat :: seq 1 (S k)).
        rewrite <- seq_shift, map_cons, map_map. f_equal.
        -- f_equal. lia.
        -- apply map_ext. intros j. f_equal. lia.
      * replace (i + 1 + Z.of_nat 6) with (i + 7) by lia.
        apply hit_week_later. exact Hh.
      * rewrite length_app. cbn [List.length]. lia.
      * lia.
    + intros j Hj. replace (i + 1 + j) with (i + (1 + j)) by lia.
      apply miss_within_week; [exact Hh | lia].
Qed.

(** The twelve entries, in closed form. *)
Lemma twelveWeeks_closed_form :
  0 <= duty <= 6 ->
  twelveWeeks tz tenants anchor duty today
  = map (fun j : nat => entry (offset0 + 7 * Z.of_nat j)) (seq 0 12).
Proof.
  intros Hd. unfold twelveWeeks.
  pose proof firstOffset_range as Hr.
  replace 120%nat with (Z.to_nat offset0 + (120 - Z.to_nat offset0))%nat by lia.
  rewrite loop12_skip.
  - rewrite Z2Nat.id by lia. cbn [Z.add].
    rewrite (loop12_from_hit 11); [reflexivity | | reflexivity | lia].
    apply hit_firstOffset. exact Hd.
  - intros j Hj. cbn [Z.add]. apply miss_before_firstOffset. lia.
Qed.

(** *** [nextForSelected] *)

Lemma loop365_step sel s i :
  loop365 sel (S s) i
  = if negb (getDay (addDays today i) =? duty) then loop365 sel s (i + 1)
    else match assignee (addDays today i) with
         | Some who => if String.eqb (id who) sel then Some (addDays today i)
                       else loop365 sel s (i + 1)
         | None => loop365 sel s (i + 1)
         end.
Proof. reflexivity. Qed.

Lemma loop365_head sel s i :
  (turn sel (addDays today i) /\ loop365 sel (S s) i = Some (addDays today i))
  \/ (~ turn sel (addDays today i)
      /\ loop365 sel (S s) i = loop365 sel s (i + 1)).
Proof.
  rewrite loop365_step. unfold turnOf.
  destruct (Z.eqb_spec (getDay (addDays today i)) duty) as [E | E]; cbn [negb].
  - destruct (assignee (addDays today i)) as [who |] eqn:A.
    + destruct (String.eqb_spec (id who) sel) as [I | I].
      * left. split; [split; [exact E | exists who; auto] | reflexivity].
      * right. split; [| reflexivity].
        intros [_ [w [Hw Hi]]]. congruence.
    + right. split; [| reflexivity]. intros [_ [w [Hw _]]]. discriminate.
  - right. split; [| reflexivity]. intros [Hd _]. contradiction.
Qed.

(** A date returned by the loop is the first turn of [sel] among the
    offsets the loop has gone through. *)
Lemma loop365_some sel s : forall i c,
  loop365 sel s i = Some c ->
  exists j, 0 <= j < Z.of_nat s /\ c = addDays today (i + j)
            /\ turn sel c
            /\ forall j', 0 <= j' < j -> ~ turn sel (addDays today (i + j')).
Proof.
  induction s as [| s IH]; intros i c H; [discriminate |].
  destruct (loop365_head sel s i) as [[Ht E] | [Hn E]]; rewrite E in H.
  - injection H as <-. exists 0. rewrite Z.add_0_r.
    repeat split; try lia; apply Ht.
  - destruct (IH _ _ H) as [j [Hj [Hc [Ht Hb]]]].
    exists (1 + j). replace (i + (1 + j)) with (i + 1 + j) by lia.
    repeat split; try lia; try assumption; try apply Ht.
    intros j' Hj'. destruct (Z.eq_dec j' 0) as [-> | Hz].
    + rewrite Z.add_0_r. exact Hn.
    + replace (i + j') with (i + 1 + (j' - 1)) by lia. apply Hb. lia.
Qed.

(** When the loop returns nothing, no offset it went through is a turn
    of [sel]. *)
Lemma loop365_none sel s : forall i,
  loop365 sel s i = None ->
  forall j, 0 <= j < Z.of_nat s -> ~ turn sel (addDays today (i + j)).
Proof.
  induction s as [| s IH]; intros i H j Hj; [lia |].
  destruct (loop365_head sel s i) as [[Ht E] | [Hn E]]; rewrite E in H;
    [discriminate |].
  destruct (Z.eq_dec j 0) as [-> | Hz].
  - rewrite Z.add_0_r. exact Hn.
  - replace (i + j) with (i + 1 + (j - 1)) by lia. apply (IH _ H). lia.
Qed.

Lemma turnOf_known sel c : turn sel c -> In sel (map id tenants).
Proof.
  intros [_ [who [Hw <-]]]. apply in_map. eapply assignee_In. exact Hw.
Qed.

End Scans.

(** C6.  For a duty weekday 0..6 and every start date, [twelveWeeks] (the
    scan of at most 120 days that stops at twelve entries) returns exactly
    twelve entries, strictly increasing in date, each on the duty weekday;
    the first is the earliest duty weekday on or after the start date: it
    is not before the start, no day from the start up to it is a duty
    weekday, and it is the start date itself exactly when the start falls
    on the duty weekday. *)
Theorem twelveWeeks_spec :
  forall (tz : TimeZone) (tenants : list Tenant) (anchor : Date) (duty : Z)
         (today : Date),
    0 <= duty <= 6 ->
    let l := twelveWeeks tz tenants anchor duty today in
    List.length l = 12%nat
    /\ (forall (i j : nat) (a b : Entry.t),
           (i < j)%nat -> nth_error l i = Some a -> nth_error l j = Some b ->
           localDay (Entry.date a) < localDay (Entry.date b))
    /\ (forall e : Entry.t, In e l -> getDay (Entry.date e) = duty)
    /\ (exists e0 : Entry.t,
           nth_error l 0 = Some e0
           /\ localDay today <= localDay (Entry.date e0)
           /\ (forall c : Z,
                  localDay today <= c < localDay (Entry.date e0) ->
                  WeekDay c <> duty)
           /\ (localDay (Entry.date e0) = localDay today <-> getDay today = duty)).
Proof.
  intros tz tenants anchor duty today Hd l. subst l.
  rewrite twelveWeeks_closed_form by exact Hd.
  pose proof (firstOffset_range duty today) as Hr.
  set (f := firstOffset duty today) in *.
  split; [rewrite length_map, length_seq; reflexivity |].
  split; [| split].
  - intros i j a b Hij Ha Hb.
    apply nth_error_map_seq in Ha, Hb. destruct Ha as [_ ->], Hb as [_ ->].
    unfold entryAt. cbn [Entry.date]. rewrite !addDays_day. cbn [localDay]. lia.
  - intros e He. apply in_map_iff in He. destruct He as [j [<- _]].
    unfold entryAt. cbn [Entry.date].
    replace (f + 7 * Z.of_nat j) with (f + Z.of_nat j * 7) by lia.
    rewrite getDay_addDays, Z.add_assoc, Z.mod_add by lia.
    rewrite <- getDay_addDays. apply hit_firstOffset. exact Hd.
  - exists (entryAt tz tenants anchor duty today (f + 7 * Z.of_nat 0)).
    split; [reflexivity |].
    unfold entryAt. cbn [Entry.date]. rewrite addDays_day. cbn [localDay].
    change (Z.of_nat 0) with 0. rewrite Z.mul_0_r, Z.add_0_r.
    split; [lia | split].
    + intros c Hc.
      pose proof (miss_before_firstOffset duty today (c - localDay today)
                    ltac:(fold f; lia)) as Hm.
      rewrite addDays_day in Hm. unfold getDay in Hm. cbn [localDay] in Hm.
      replace (localDay today + (c - localDay today)) with c in Hm by lia.
      exact Hm.
    + pose proof (getDay_range today) as Hg. unfold f, firstOffset in *.
      split; intros H; divmod.
Qed.

Lemma twelveWeeks_spec_witness :
  List.length (twelveWeeks easternZone TENANTS ROTATION_START THURSDAY
                 (newDate 2025 10 2)) = 12%nat.
Proof.
  assert (H : 0 <= THURSDAY <= 6) by (unfold THURSDAY; lia).
  exact (proj1 (twelveWeeks_spec easternZone TENANTS ROTATION_START THURSDAY
                  (newDate 2025 10 2) H)).
Defined.

(** C7.  For every start date and every identifier: a date returned by
    [nextForSelected] is the start date moved by fewer than 365 days, falls
    on the duty weekday, resolves to an assignee with that identifier, and
    no earlier duty weekday from the start date on resolves to such an
    assignee; and for an identifier that no tenant has the result is
    none. *)
Theorem nextForSelected_spec :
  forall (tz : TimeZone) (tenants : list Tenant) (anchor : Date) (duty : Z)
         (today : Date) (selectedTenantId : string),
    (forall c : Date,
        nextForSelected tz tenants anchor duty today selectedTenantId = Some c ->
        exists i : Z,
          0 <= i < 365
          /\ c = addDays today i
          /\ getDay c = duty
          /\ (exists who : Tenant,
                 getAssigneeForDate tz tenants anchor duty c = Some who
                 /\ id who = selectedTenantId)
          /\ (forall j : Z,
                 0 <= j < i ->
                 getDay (addDays today j) = duty ->
                 forall who' : Tenant,
                   getAssigneeForDate tz tenants anchor duty (addDays today j)
                   = Some who' ->
                   id who' <> selectedTenantId))
    /\ (~ In selectedTenantId (map id tenants) ->
        nextForSelected tz tenants anchor duty today selectedTenantId = None).
Proof.
  intros tz tenants anchor duty today sel. split.
  - intros c H. unfold nextForSelected in H.
    destruct (String.eqb sel EmptyString); [discriminate |].
    apply loop365_some in H. destruct H as [i [Hi [Hc [[Hd Hw] Hb]]]].
    exists i. cbn [Z.add] in *.
    split; [lia | split; [exact Hc | split; [exact Hd | split; [exact Hw |]]]].
    intros j Hj Hdj who' Hw' Hid.
    apply (Hb j Hj). split; [exact Hdj | exists who'; auto].
  - intros Hn. unfold nextForSelected.
    destruct (String.eqb sel EmptyString); [reflexivity |].
    destruct (nextForSelected_loop tz tenants anchor duty today sel 365 0)
      as [c |] eqn:E; [| reflexivity].
    apply loop365_some in E. destruct E as [i [_ [_ [Ht _]]]].
    exfalso. apply Hn. eapply turnOf_known. exact Ht.
Qed.

Lemma nextForSelected_spec_witness :
  (exists i : Z, 0 <= i < 365 /\ newDate 2025 7 27 = addDays (newDate 2025 7 15) i)
  /\ nextForSelected easternZone TENANTS ROTATION_START WEDNESDAY
       (newDate 2025 7 15) "9" = None.
Proof.
  pose proof (nextForSelected_spec easternZone TENANTS ROTATION_START WEDNESDAY
                (newDate 2025 7 15)) as S.
  split.
  - destruct (proj1 (S "3"%string) (newDate 2025 7 27)) as [i [Hi [Hc _]]].
    + vm_compute; reflexivity.
    + exists i. split; assumption.
  - apply (proj2 (S "9"%string)).
    cbn. intros [H | [H | [H | [H | [H | H]]]]]; discriminate H || exact H.
Defined.

(* ================================================================== *)
(** * Part VIII: [addMonths]                                            *)
(* ================================================================== *)

Lemma getMonth_range d : 0 <= getMonth d <= 11.
Proof. apply MonthFromDay_range. Qed.

Lemma getDate_range d : 1 <= getDate d <= 31.
Proof. apply DateFromDay_bounds. Qed.

(** [addMonths d n] is the day of the month of [d] counted from the first
    of the month [n] months on. *)
Lemma addMonths_day d n :
  addMonths d n
  = mkDate (MakeDay (getFullYear d + (getMonth d + n) / 12)
                    ((getMonth d + n) mod 12) (getDate d))
           (timeInDay d).
Proof.
  unfold addMonths, setMonth. rewrite MakeDay_carry. reflexivity.
Qed.

(** C9.  [addMonths d n] keeps the time of day and moves the month by [n]
    (carrying into the year).  When the target month has the day of the
    month of [d], the result is that day of the target month.  When the
    target month is shorter, the result is not clamped to its last day:
    the days in excess roll over into the month after it.  One month
    after 31 January 2025 is 3 March 2025 (2 March in the leap year
    2024). *)
Theorem addMonths_spec :
  forall (d : Date) (n : Z),
    let y := getFullYear d + (getMonth d + n) / 12 in
    let m := (getMonth d + n) mod 12 in
    let r := addMonths d n in
    timeInDay r = timeInDay d
    /\ (getDate d <= daysOfMonth y m ->
        getFullYear r = y /\ getMonth r = m /\ getDate r = getDate d)
    /\ (daysOfMonth y m < getDate d ->
        getFullYear r = y + (m + 1) / 12
        /\ getMonth r = (m + 1) mod 12
        /\ getDate r = getDate d - daysOfMonth y m)
    /\ addMonths (newDate 2025 0 31) 1 = newDate 2025 2 3
    /\ addMonths (newDate 2024 0 31) 1 = newDate 2024 2 2.
Proof.
  intros d n y m r.
  assert (Hm : 0 <= m <= 11)
    by (unfold m; pose proof (Z.mod_pos_bound (getMonth d + n) 12); lia).
  pose proof (getDate_range d) as Hd.
  pose proof (daysOfMonth_range y m Hm) as Hl.
  assert (Er : r = mkDate (MakeDay y m (getDate d)) (timeInDay d))
    by apply addMonths_day.
  split; [rewrite Er; reflexivity |].
  split; [| split; [| split; reflexivity]].
  - intros Hfit. rewrite Er. unfold getFullYear, getMonth, getDate. cbn [localDay].
    apply fields_MakeDay; [exact Hm |]. fold (getDate d). lia.
  - intros Hshort.
    assert (Hm' : 0 <= (m + 1) mod 12 <= 11)
      by (pose proof (Z.mod_pos_bound (m + 1) 12); lia).
    pose proof (daysOfMonth_range (y + (m + 1) / 12) _ Hm') as Hl'.
    assert (E : MakeDay y m (getDate d)
                = MakeDay (y + (m + 1) / 12) ((m + 1) mod 12)
                    (getDate d - daysOfMonth y m)).
    { rewrite <- MakeDay_carry, MakeDay_next_month.
      rewrite (Z.div_small m 12), (Z.mod_small m 12), Z.add_0_r by lia.
      replace (getDate d) with ((getDate d - daysOfMonth y m) + daysOfMonth y m)
        at 1 by lia.
      apply MakeDay_day. }
    rewrite Er. unfold getFullYear, getMonth, getDate. cbn [localDay].
    fold (getDate d). rewrite E.
    apply fields_MakeDay; [exact Hm' | lia].
Qed.

Lemma addMonths_spec_witness :
  (getDate (newDate 2025 7 13) <= daysOfMonth 2025 8
   /\ getMonth (addMonths (newDate 2025 7 13) 1) = 8)
  /\ (daysOfMonth 2025 1 < getDate (newDate 2025 0 31)
      /\ getMonth (addMonths (newDate 2025 0 31) 1) = 2).
Proof.
  split.
  - assert (H : getDate (newDate 2025 7 13) <= daysOfMonth 2025 8)
      by (vm_compute; discriminate).
    split; [exact H |].
    exact (proj1 (proj2 (proj1 (proj2 (addMonths_spec (newDate 2025 7 13) 1)) H))).
  - assert (H : daysOfMonth 2025 1 < getDate (newDate 2025 0 31))
      by (vm_compute; reflexivity).
    split; [exact H |].
    exact (proj1 (proj2 (proj1 (proj2 (proj2 (addMonths_spec (newDate 2025 0 31) 1))) H))).
Defined.

(* ================================================================== *)
(** * Part IX: the month grid                                        *)
(* ================================================================== *)

Lemma nth_error_last {A} (pre : list A) (c : A) :
  nth_error (pre ++ [c]) (List.length (pre ++ [c]) - 1) = Some c.
Proof.
  rewrite length_app. cbn [List.length].
  replace (List.length pre + 1 - 1)%nat with (List.length pre) by lia.
  rewrite nth_error_app2 by lia. rewrite Nat.sub_diag. reflexivity.
Qed.

(** On a grid that is not empty the trailing loop does not throw. *)
Lemma trailingDays_trail passes : forall (pre : list Cell.t) (c : Cell.t),
  trailingDays passes (pre ++ [c]) = Some (pre ++ [c] ++ trail passes c).
Proof.
  induction passes as [| p IH]; intros pre c.
  - cbn [trailingDays trail]. rewrite app_nil_r. reflexivity.
  - cbn [trailingDays]. rewrite nth_error_last.
    fold (nextCell c). rewrite IH. cbn [trail].
    rewrite <- !app_assoc. reflexivity.
Qed.

Lemma length_trail n : forall c, List.length (trail n c) = n.
Proof. induction n as [| n IH]; intros c; cbn; [| rewrite IH]; reflexivity. Qed.

Lemma trail_not_inMonth n : forall c x, In x (trail n c) -> Cell.inMonth x = false.
Proof.
  induction n as [| n IH]; intros c x H; [contradiction |].
  destruct H as [<- | H]; [reflexivity | eapply IH; exact H].
Qed.

(** A pushed cell is one day after a last cell of a plain year ... *)
Lemma nextCell_plain c :
  plainYear (Cell.date c) ->
  nextCell c = Cell.make (mkDate (localDay (Cell.date c) + 1) 0) false.
Proof.
  intros H. unfold nextCell. rewrite newDate_fields by exact H. reflexivity.
Qed.

(** ... and in any case later than the last cell. *)
Lemma nextCell_later c :
  localDay (Cell.date c) < localDay (Cell.date (nextCell c)).
Proof.
  set (d := Cell.date c).
  destruct (Z_le_dec 0 (getFullYear d)) as [H0 |];
    [destruct (Z_le_dec (getFullYear d) 99) as [H1 |] |].
  - unfold nextCell. fold d. cbn [Cell.date]. unfold newDate. cbn [localDay].
    rewrite MakeFullYear_legacy by lia.
    pose proof (getMonth_range d) as Hm. pose proof (getDate_range d) as Hd.
    rewrite MakeDay_plain by exact Hm.
    pose proof (monthStart_bounds (1900 + getFullYear d) (getMonth d) Hm) as Hs.
    pose proof (DayFromYear_mono 1900 (1900 + getFullYear d) ltac:(lia)) as M1.
    pose proof (YearFromDay_spec (localDay d)) as Hy. fold (getFullYear d) in Hy.
    pose proof (DayFromYear_mono (getFullYear d + 1) 100 ltac:(lia)) as M2.
    assert (E1 : DayFromYear 1900 = -25567) by reflexivity.
    assert (E2 : DayFromYear 100 = -683003) by reflexivity.
    lia.
  - rewrite nextCell_plain by (fold d; unfold plainYear; lia). cbn. fold d. lia.
  - rewrite nextCell_plain by (fold d; unfold plainYear; lia). cbn. fold d. lia.
Qed.

Lemma trail_later n : forall c x,
  In x (trail n c) -> localDay (Cell.date c) < localDay (Cell.date x).
Proof.
  induction n as [| n IH]; intros c x H; [contradiction |].
  pose proof (nextCell_later c) as Hl.
  destruct H as [<- | H]; [exact Hl |].
  apply IH in H. lia.
Qed.

(** While the days stay in plain years, the pushed cells are consecutive
    days. *)
Lemma trail_plain n : forall c,
  (forall k, 0 <= k < Z.of_nat n ->
             plainYear (mkDate (localDay (Cell.date c) + k) 0)) ->
  trail n c
  = map (fun k : nat =>
           Cell.make (mkDate (localDay (Cell.date c) + 1 + Z.of_nat k) 0) false)
        (seq 0 n).
Proof.
  induction n as [| n IH]; intros c H; [reflexivity |].
  cbn [trail]. change (seq 0 (S n)) with (0%nat :: seq 1 n).
  rewrite <- seq_shift, map_cons, map_map.
  assert (Hc : plainYear (Cell.date c)).
  { specialize (H 0 ltac:(lia)). unfold plainYear, getFullYear in *.
    cbn [localDay] in H. rewrite Z.add_0_r in H. exact H. }
  rewrite nextCell_plain by exact Hc. f_equal.
  - do 2 f_equal. lia.
  - rewrite IH.
    + cbn [Cell.date localDay]. apply map_ext. intros k. do 2 f_equal. lia.
    + intros k Hk. cbn [Cell.date localDay].
      replace (localDay (Cell.date c) + 1 + k)
        with (localDay (Cell.date c) + (1 + k)) by lia.
      apply H. lia.
Qed.

Section Grid.

Variable anchor : Date.

(** The names of [buildMonthGrid], and the year as the constructor reads
    it. *)
Let year := getFullYear anchor.
Let month := getMonth anchor.
Let firstOfMonth := newDate year month 1.
Let startWeekday := getDay firstOfMonth.
Let daysInMonth := getDate (newDate year (month + 1) 0).
Let F := localDay firstOfMonth.

Lemma month_range : 0 <= month <= 11.
Proof. apply getMonth_range. Qed.

Lemma startWeekday_range : 0 <= startWeekday <= 6.
Proof. apply getDay_range. Qed.

Lemma newDate_offset k : newDate year month (1 + k) = mkDate (F + k) 0.
Proof. unfold F, firstOfMonth, newDate. cbn [localDay]. rewrite MakeDay_day. reflexivity. Qed.

(** [daysInMonth] is the length of the month the grid is built for. *)
Lemma daysInMonth_eq : daysInMonth = daysOfMonth (MakeFullYear year) month.
Proof.
  unfold daysInMonth, newDate, getDate. cbn [localDay].
  pose proof month_range as Hm.
  pose proof (daysOfMonth_range (MakeFullYear year) month Hm) as Hl.
  rewrite MakeDay_next_month.
  rewrite (Z.div_small month 12), (Z.mod_small month 12), Z.add_0_r by lia.
  replace (MakeDay (MakeFullYear year) month 0 + daysOfMonth (MakeFullYear year) month)
    with (MakeDay (MakeFullYear year) month (daysOfMonth (MakeFullYear year) month)).
  - apply fields_MakeDay; lia.
  - rewrite <- MakeDay_day. f_equal.
Qed.

Lemma daysInMonth_range : 28 <= daysInMonth <= 31.
Proof. rewrite daysInMonth_eq. apply daysOfMonth_range, month_range. Qed.

Lemma leadingDays_eq :
  leadingDays year month startWeekday
  = map (fun i : nat => Cell.make (mkDate (F - startWeekday + Z.of_nat i) 0) false)
        (seq 0 (Z.to_nat startWeekday)).
Proof.
  unfold leadingDays. apply map_ext. intros i.
  replace (1 - (startWeekday - Z.of_nat i)) with (1 + (Z.of_nat i - startWeekday)) by lia.
  rewrite newDate_offset. do 2 f_equal. lia.
Qed.

Lemma currentDays_eq :
  currentDays year month daysInMonth
  = map (fun k : nat => Cell.make (mkDate (F + Z.of_nat k) 0) true)
        (seq 0 (Z.to_nat daysInMonth)).
Proof.
  unfold currentDays. rewrite <- seq_shift, map_map. apply map_ext. intros k.
  replace (Z.of_nat (S k)) with (1 + Z.of_nat k) by lia.
  rewrite newDate_offset. reflexivity.
Qed.

(** The grid before the trailing loop, split at its last cell. *)
Lemma currentDays_last :
  exists pre,
    currentDays year month daysInMonth
    = pre ++ [Cell.make (mkDate (F + daysInMonth - 1) 0) true]
    /\ List.length pre = Z.to_nat (daysInMonth - 1).
Proof.
  rewrite currentDays_eq. pose proof daysInMonth_range as Hr.
  replace (Z.to_nat daysInMonth) with (S (Z.to_nat (daysInMonth - 1))) by lia.
  rewrite seq_S, map_app. cbn [map Nat.add].
  eexists. split.
  - f_equal. do 3 f_equal. lia.
  - rewrite length_map, length_seq. reflexivity.
Qed.

(** The grid: the leading cells, the cells of the month, and the cells
    the trailing loop pushes after the last day of the month. *)
Lemma buildMonthGrid_eq :
  buildMonthGrid anchor
  = Some (leadingDays year month startWeekday
          ++ currentDays year month daysInMonth
          ++ trail (42 - Z.to_nat startWeekday - Z.to_nat daysInMonth)
                   (Cell.make (mkDate (F + daysInMonth - 1) 0) true)).
Proof.
  unfold buildMonthGrid.
  fold year. fold month. fold firstOfMonth. fold startWeekday. fold daysInMonth.
  destruct currentDays_last as [pre [E Hl]].
  assert (N : (42 - List.length (leadingDays year month startWeekday
                                 ++ currentDays year month daysInMonth))%nat
              = (42 - Z.to_nat startWeekday - Z.to_nat daysInMonth)%nat).
  { rewrite length_app. unfold leadingDays, currentDays.
    rewrite !length_map, !length_seq. lia. }
  rewrite N. rewrite E.
  rewrite (app_assoc (leadingDays year month startWeekday) pre).
  rewrite trailingDays_trail.
  rewrite <- !app_assoc. reflexivity.
Qed.

Let leading := leadingDays year month startWeekday.
Let current := currentDays year month daysInMonth.
Let trailing :=
  trail (42 - Z.to_nat startWeekday - Z.to_nat daysInMonth)
        (Cell.make (mkDate (F + daysInMonth - 1) 0) true).

Lemma length_leading : List.length leading = Z.to_nat startWeekday.
Proof. unfold leading, leadingDays. rewrite length_map, length_seq. reflexivity. Qed.

Lemma length_current : List.length current = Z.to_nat daysInMonth.
Proof. unfold current, currentDays. rewrite length_map, length_seq. reflexivity. Qed.

Lemma length_grid : List.length (leading ++ current ++ trailing) = 42%nat.
Proof.
  rewrite !length_app, length_leading, length_current. unfold trailing.
  rewrite length_trail.
  pose proof startWeekday_range. pose proof daysInMonth_range. lia.
Qed.

(** Every cell by its index: before the month, in it, or after it. *)
Lemma grid_cell_cases (j : nat) (c : Cell.t) :
  nth_error (leading ++ current ++ trailing) j = Some c ->
  (Z.of_nat j < startWeekday
   /\ c = Cell.make (mkDate (F - startWeekday + Z.of_nat j) 0) false)
  \/ (startWeekday <= Z.of_nat j < startWeekday + daysInMonth
      /\ c = Cell.make (mkDate (F - startWeekday + Z.of_nat j) 0) true)
  \/ (startWeekday + daysInMonth <= Z.of_nat j
      /\ In c trailing).
Proof.
  intros H. pose proof startWeekday_range as Hs. pose proof daysInMonth_range as Hd.
  destruct (Nat.lt_ge_cases j (List.length leading)) as [L | L].
  - left. rewrite nth_error_app1 in H by exact L.
    rewrite length_leading in L. split; [lia |].
    unfold leading in H. rewrite leadingDays_eq in H.
    apply nth_error_map_seq in H. apply H.
  - rewrite nth_error_app2 in H by exact L.
    rewrite length_leading in *.
    destruct (Nat.lt_ge_cases (j - Z.to_nat startWeekday) (List.length current))
      as [C | C].
    + right; left. rewrite nth_error_app1 in H by exact C.
      rewrite length_current in C. split; [lia |].
      unfold current in H. rewrite currentDays_eq in H.
      apply nth_error_map_seq in H. destruct H as [_ ->]. do 2 f_equal. lia.
    + right; right. rewrite nth_error_app2 in H by exact C.
      rewrite length_current in C. split; [lia |].
      eapply nth_error_In. exact H.
Qed.

Lemma grid_first_cell :
  nth_error (leading ++ current ++ trailing) (Z.to_nat startWeekday)
  = Some (Cell.make firstOfMonth true).
Proof.
  pose proof daysInMonth_range as Hd.
  rewrite nth_error_app2 by (rewrite length_leading; lia).
  rewrite length_leading, Nat.sub_diag.
  rewrite nth_error_app1 by (rewrite length_current; lia).
  unfold current. rewrite currentDays_eq.
  replace (Z.to_nat daysInMonth) with (S (Z.to_nat (daysInMonth - 1))) by lia.
  cbn [seq map nth_error]. do 2 f_equal.
  unfold F, firstOfMonth, newDate. cbn [localDay]. f_equal. lia.
Qed.

Lemma grid_before_first (j : nat) (c : Cell.t) :
  (j < Z.to_nat startWeekday)%nat ->
  nth_error (leading ++ current ++ trailing) j = Some c ->
  Cell.inMonth c = false.
Proof.
  intros Hj H. apply grid_cell_cases in H.
  destruct H as [[_ ->] | [[H _] | [H _]]]; [reflexivity | lia | ].
  pose proof daysInMonth_range. lia.
Qed.

(** Every cell is at most six days before the first of the month. *)
Lemma grid_cell_day (j : nat) (c : Cell.t) :
  nth_error (leading ++ current ++ trailing) j = Some c ->
  F - 6 <= localDay (Cell.date c)
  /\ (localDay (Cell.date c) = F -> Z.of_nat j = startWeekday).
Proof.
  intros H. pose proof startWeekday_range as Hs. pose proof daysInMonth_range as Hd.
  apply grid_cell_cases in H.
  destruct H as [[Hj ->] | [[Hj ->] | [Hj Hin]]]; cbn [Cell.date localDay].
  - split; lia.
  - split; lia.
  - apply trail_later in Hin. cbn [Cell.date localDay] in Hin. split; lia.
Qed.

(** A cell that holds the first day of the month of [anchor] is the cell
    at [startWeekday]. *)
Lemma grid_holds_first (i : nat) (c : Cell.t) :
  nth_error (leading ++ current ++ trailing) i = Some c ->
  getFullYear (Cell.date c) = year ->
  getMonth (Cell.date c) = month ->
  getDate (Cell.date c) = 1 ->
  i = Z.to_nat startWeekday.
Proof.
  intros H Hy Hm Hd. pose proof startWeekday_range as Hs.
  pose proof (MakeDay_fields (localDay (Cell.date c)) 0) as R.
  fold (getFullYear (Cell.date c)) in R. fold (getMonth (Cell.date c)) in R.
  fold (getDate (Cell.date c)) in R. rewrite Hy, Hm, Hd, !Z.add_0_r in R.
  destruct (grid_cell_day i c H) as [Hlow Heq].
  destruct (Z_le_dec 0 year) as [H0 |]; [destruct (Z_le_dec year 99) as [H1 |] |].
  - exfalso.
    pose proof (YearFromDay_spec (localDay (Cell.date c))) as Sp.
    fold (getFullYear (Cell.date c)) in Sp. rewrite Hy in Sp.
    pose proof (DayFromYear_mono (year + 1) 100 ltac:(lia)) as M1.
    assert (HF : DayFromYear 1900 <= F).
    { unfold F, firstOfMonth, newDate. cbn [localDay].
      rewrite MakeFullYear_legacy by lia.
      rewrite MakeDay_plain by apply month_range.
      pose proof (DayFromYear_mono 1900 (1900 + year) ltac:(lia)).
      pose proof (monthStart_bounds (1900 + year) month month_range). lia. }
    assert (E1 : DayFromYear 1900 = -25567) by reflexivity.
    assert (E2 : DayFromYear 100 = -683003) by reflexivity.
    lia.
  - assert (E : localDay (Cell.date c) = F).
    { unfold F, firstOfMonth, newDate. cbn [localDay].
      rewrite MakeFullYear_plain by lia. symmetry. exact R. }
    apply Heq in E. lia.
  - assert (E : localDay (Cell.date c) = F).
    { unfold F, firstOfMonth, newDate. cbn [localDay].
      rewrite MakeFullYear_plain by lia. symmetry. exact R. }
    apply Heq in E. lia.
Qed.

(** When the constructor takes the year as it is, [firstOfMonth] is the
    first day of the month of [anchor]. *)
Lemma firstOfMonth_fields :
  plainYear anchor ->
  getFullYear firstOfMonth = year /\ getMonth firstOfMonth = month
  /\ getDate firstOfMonth = 1.
Proof.
  intros H. unfold firstOfMonth, newDate, getFullYear, getMonth, getDate.
  cbn [localDay]. fold year. rewrite MakeFullYear_plain by exact H.
  apply fields_MakeDay; [apply month_range |].
  pose proof (daysOfMonth_range year month month_range). lia.
Qed.

(** The weekday of a cell whose day follows the leading cells in step. *)
Lemma weekday_in_step (i : Z) :
  WeekDay (F - startWeekday + i) = i mod 7.
Proof.
  unfold startWeekday, getDay. fold F. unfold WeekDay. divmod.
Qed.

(** Outside the years 0 to 99 and December of the year -1, the days of
    the grid stay in plain years. *)
Lemma grid_days_plain (k : Z) :
  plainYear anchor -> ~ (year = -1 /\ month = 11) ->
  0 <= k <= 40 -> plainYear (mkDate (F + k) 0).
Proof.
  intros Hp Hdec Hk. pose proof month_range as Hm.
  assert (EF : F = DayFromYear year + monthStart month (LeapOfYear year)).
  { unfold F, firstOfMonth, newDate. cbn [localDay].
    rewrite MakeFullYear_plain by exact Hp.
    rewrite MakeDay_plain by exact Hm. lia. }
  pose proof (monthStart_bounds year month Hm) as Hs.
  unfold plainYear in Hp. fold year in Hp.
  destruct (Z_le_dec 100 year) as [Hy | Hy].
  - apply plainYear_after. cbn [localDay].
    pose proof (DayFromYear_mono 100 year Hy). lia.
  - assert (Hneg : year <= -1) by lia.
    assert (Hlt : F + k < DayFromYear 0).
    { pose proof (DayFromYear_succ year) as S1. rewrite DaysInYear_leap in S1.
      destruct (Z.eq_dec year (-1)) as [E | E].
      - replace (year + 1) with 0 in S1 by lia. assert (month <= 10) by lia. lia.
      - pose proof (DayFromYear_succ (year + 1)) as S2.
        pose proof (DaysInYear_cases (year + 1)).
        pose proof (LeapOfYear_cases year).
        pose proof (DayFromYear_mono (year + 1 + 1) 0 ltac:(lia)). lia. }
    unfold plainYear, getFullYear. cbn [localDay].
    pose proof (YearFromDay_spec (F + k)) as Sp.
    destruct (Z_le_dec 0 (YearFromDay (F + k))) as [Hge |]; [| lia].
    pose proof (DayFromYear_mono 0 _ Hge). lia.
Qed.

(** There the grid is forty-two consecutive days. *)
Lemma grid_consecutive (i : nat) :
  plainYear anchor -> ~ (year = -1 /\ month = 11) ->
  (i < 42)%nat ->
  exists c, nth_error (leading ++ current ++ trailing) i = Some c
            /\ Cell.date c = mkDate (F - startWeekday + Z.of_nat i) 0.
Proof.
  intros Hp Hdec Hi. pose proof startWeekday_range as Hs.
  pose proof daysInMonth_range as Hd.
  assert (Hsome : nth_error (leading ++ current ++ trailing) i <> None)
    by (apply nth_error_Some; rewrite length_grid; exact Hi).
  destruct (nth_error (leading ++ current ++ trailing) i) as [c |] eqn:E;
    [| contradiction].
  exists c. split; [reflexivity |].
  pose proof E as E'. apply grid_cell_cases in E'.
  destruct E' as [[_ ->] | [[_ ->] | [Hj _]]]; try reflexivity.
  rewrite !nth_error_app2 in E
    by (rewrite ?length_leading, ?length_current; lia).
  rewrite length_leading, length_current in E.
  unfold trailing in E. rewrite trail_plain in E.
  - apply nth_error_map_seq in E. destruct E as [_ ->].
    cbn [Cell.date localDay]. f_equal. lia.
  - intros k Hk. cbn [Cell.date localDay].
    replace (F + daysInMonth - 1 + k) with (F + (daysInMonth - 1 + k)) by lia.
    apply grid_days_plain; try assumption. lia.
Qed.

End Grid.

(** What [buildMonthGrid] does for every anchor date: it returns (does not
    throw) a grid of exactly 42 cells, whatever the length of the month, which is
    28 to 31 days.  With [firstOfMonth] and [startWeekday] as the function
    computes them, the cell at index [startWeekday] holds [firstOfMonth]
    and is marked in-month, and every cell before it is marked
    not-in-month.  Read on the dates themselves: any cell that holds day 1
    of the anchor's month and year is marked in-month and every cell
    before it is not; there is such a cell, [firstOfMonth], whenever the
    constructor takes the anchor's year as it is (a year outside 0..99).
    The grid depends on the anchor's year and month alone. *)
Lemma buildMonthGrid_spec :
  forall anchor : Date,
    let year := getFullYear anchor in
    let month := getMonth anchor in
    let firstOfMonth := newDate year month 1 in
    let startWeekday := Z.to_nat (getDay firstOfMonth) in
    exists grid : list Cell.t,
      buildMonthGrid anchor = Some grid
      /\ List.length grid = 42%nat
      /\ 28 <= getDate (newDate year (month + 1) 0) <= 31
      /\ nth_error grid startWeekday = Some (Cell.make firstOfMonth true)
      /\ (forall (j : nat) (c : Cell.t),
             (j < startWeekday)%nat -> nth_error grid j = Some c ->
             Cell.inMonth c = false)
      /\ (forall (i : nat) (c : Cell.t),
             nth_error grid i = Some c ->
             getFullYear (Cell.date c) = year ->
             getMonth (Cell.date c) = month ->
             getDate (Cell.date c) = 1 ->
             Cell.inMonth c = true
             /\ forall (j : nat) (c' : Cell.t),
                 (j < i)%nat -> nth_error grid j = Some c' ->
                 Cell.inMonth c' = false)
      /\ (plainYear anchor ->
          getFullYear firstOfMonth = year /\ getMonth firstOfMonth = month
          /\ getDate firstOfMonth = 1)
      /\ (forall anchor' : Date,
             getFullYear anchor' = year -> getMonth anchor' = month ->
             buildMonthGrid anchor' = Some grid).
Proof.
  intros anchor year month firstOfMonth startWeekday.
  subst year month firstOfMonth startWeekday.
  eexists. split; [apply buildMonthGrid_eq |].
  split; [apply length_grid |].
  split; [apply daysInMonth_range |].
  split; [apply grid_first_cell |].
  split; [apply grid_before_first |].
  split; [| split; [apply firstOfMonth_fields |]].
  - intros i c H Hy Hm Hd.
    pose proof (grid_holds_first anchor i c H Hy Hm Hd) as ->.
    rewrite grid_first_cell in H. injection H as <-.
    split; [reflexivity | apply grid_before_first].
  - intros anchor' Hy Hm. rewrite <- (buildMonthGrid_eq anchor).
    unfold buildMonthGrid. rewrite Hy, Hm. reflexivity.
Qed.

Lemma buildMonthGrid_spec_witness :
  plainYear (newDate 2025 1 10)
  /\ getDate (newDate (getFullYear (newDate 2025 1 10))
                      (getMonth (newDate 2025 1 10)) 1) = 1
  /\ exists grid : list Cell.t,
       buildMonthGrid (newDate 2025 1 10) = Some grid
       /\ List.length grid = 42%nat.
Proof.
  assert (P : plainYear (newDate 2025 1 10))
    by (apply plainYear_recent; vm_compute; discriminate).
  destruct (buildMonthGrid_spec (newDate 2025 1 10))
    as [grid [E [L [_ [_ [_ [_ [Fi _]]]]]]]].
  split; [exact P |].
  split; [exact (proj2 (proj2 (Fi P))) |].
  exists grid. split; [exact E | exact L].
Defined.

(** Where the constructor takes every year of the grid as it is (an
    anchor outside the years 0..99 and outside December of the year -1),
    the grid is 42 consecutive days from the last Sunday on or before the
    first of the anchor's month, and cell [i] falls on weekday
    [i mod 7]. *)
Lemma buildMonthGrid_consecutive :
  forall anchor : Date,
    plainYear anchor ->
    ~ (getFullYear anchor = -1 /\ getMonth anchor = 11) ->
    let firstOfMonth := newDate (getFullYear anchor) (getMonth anchor) 1 in
    let day0 := localDay firstOfMonth - getDay firstOfMonth in
    exists grid : list Cell.t,
      buildMonthGrid anchor = Some grid
      /\ List.length grid = 42%nat
      /\ (getFullYear firstOfMonth = getFullYear anchor
          /\ getMonth firstOfMonth = getMonth anchor
          /\ getDate firstOfMonth = 1)
      /\ (WeekDay day0 = 0 /\ localDay firstOfMonth - 6 <= day0 <= localDay firstOfMonth)
      /\ (forall i : nat, (i < 42)%nat ->
            exists c : Cell.t,
              nth_error grid i = Some c
              /\ Cell.date c = mkDate (day0 + Z.of_nat i) 0
              /\ getDay (Cell.date c) = Z.of_nat i mod 7).
Proof.
  intros anchor Hp Hdec firstOfMonth day0. subst firstOfMonth day0.
  eexists. split; [apply buildMonthGrid_eq |].
  split; [apply length_grid |].
  split; [apply firstOfMonth_fields; exact Hp |].
  split.
  - pose proof (startWeekday_range anchor) as Hs. split; [| lia].
    pose proof (weekday_in_step anchor 0) as W. rewrite Z.add_0_r in W. exact W.
  - intros i Hi.
    destruct (grid_consecutive anchor i Hp Hdec Hi) as [c [E D]].
    exists c. split; [exact E | split; [exact D |]].
    rewrite D. unfold getDay at 1. cbn [localDay]. apply weekday_in_step.
Qed.

(** C8 fails on the code.  An anchor of the year 50 (23 September 50)
    has year 50, and [new Date(year, month, 1)] reads 50 as 1950: the
    grid has 42 cells, but they are the grid of September 1950.  Every
    cell is of the year 1950, so no cell holds the 1st of the anchor's
    month; the cell marked in-month at [startWeekday] is 1 September
    1950. *)
Theorem grid_of_year_50_is_of_1950 :
  (getFullYear (mkDate (-701000) 0), getMonth (mkDate (-701000) 0),
   getDate (mkDate (-701000) 0)) = (50, 8, 23)
  /\ exists grid : list Cell.t,
       buildMonthGrid (mkDate (-701000) 0) = Some grid
       /\ List.length grid = 42%nat
       /\ (forall c : Cell.t,
              In c grid -> getFullYear (Cell.date c) = 1950)
       /\ (forall c : Cell.t,
              In c grid ->
              ~ (getFullYear (Cell.date c) = 50 /\ getMonth (Cell.date c) = 8
                 /\ getDate (Cell.date c) = 1))
       /\ nth_error grid 5 = Some (Cell.make (mkDate (-7062) 0) true)
       /\ (getFullYear (mkDate (-7062) 0), getMonth (mkDate (-7062) 0),
           getDate (mkDate (-7062) 0)) = (1950, 8, 1).
Proof.
  split; [reflexivity |].
  eexists. split; [vm_compute; reflexivity |].
  assert (A : forall c : Cell.t,
             In c (map (fun n => Cell.make (mkDate n 0)
                                   ((-7062 <=? n) && (n <=? -7033)))
                       (map (fun i => -7067 + Z.of_nat i) (seq 0 42))) ->
             getFullYear (Cell.date c) = 1950).
  { intros c Hc. apply in_map_iff in Hc. destruct Hc as [n [<- Hn]].
    apply in_map_iff in Hn. destruct Hn as [i [<- Hi]]. apply in_seq in Hi.
    cbn [Cell.date]. unfold getFullYear. cbn [localDay].
    apply YearFromDay_unique.
    assert (E1 : DayFromYear 1950 = -7305) by reflexivity.
    assert (E2 : DayFromYear (1950 + 1) = -6940) by reflexivity. lia. }
  split; [reflexivity |].
  split; [exact A |].
  split; [intros c Hc [Hy _]; rewrite (A c Hc) in Hy; discriminate Hy |].
  split; reflexivity.
Qed.

(** C10 fails on the code.  The grid built for an anchor in December of
    the year -1 runs on into January of the year 0; the trailing loop
    then builds the day after 1 January 0 with [new Date(0, 0, 2)], which
    the constructor reads as 2 January 1900.  Cells 34 and 35 are 1
    January of the year 0 and 2 January 1900: not consecutive days, and
    cell 35 is a Tuesday in the Sunday column. *)
Theorem grid_breaks_after_year_minus_1 :
  exists (grid : list Cell.t) (a b : Cell.t),
    buildMonthGrid (newDate (-1) 11 15) = Some grid
    /\ nth_error grid 34 = Some a
    /\ nth_error grid 35 = Some b
    /\ (getFullYear (Cell.date a), getMonth (Cell.date a), getDate (Cell.date a))
       = (0, 0, 1)
    /\ (getFullYear (Cell.date b), getMonth (Cell.date b), getDate (Cell.date b))
       = (1900, 0, 2)
    /\ localDay (Cell.date b) - localDay (Cell.date a) = 693962
    /\ getDay (Cell.date b) = 2
    /\ Z.of_nat 35 mod 7 = 0.
Proof.
  do 3 eexists.
  split; [vm_compute; reflexivity |].
  split; [reflexivity |].
  split; [reflexivity |].
  repeat split; vm_compute; reflexivity.
Qed.

(* ================================================================== *)
(** * Part X: further properties of the utilities                      *)
(* ================================================================== *)

Lemma toLocalMidnight_plainYear d : plainYear (toLocalMidnight d).
Proof.
  destruct (Z_le_dec 0 (getFullYear d)) as [H0 |];
    [destruct (Z_le_dec (getFullYear d) 99) as [H1 |] |].
  - apply plainYear_after.
    pose proof (toLocalMidnight_legacy d ltac:(lia)) as Hl.
    assert (E1 : DayFromYear 1900 = -25567) by reflexivity.
    assert (E2 : DayFromYear 100 = -683003) by reflexivity. lia.
  - rewrite toLocalMidnight_plain by (unfold plainYear; lia).
    unfold plainYear, getFullYear in *. cbn [localDay]. lia.
  - rewrite toLocalMidnight_plain by (unfold plainYear; lia).
    unfold plainYear, getFullYear in *. cbn [localDay]. lia.
Qed.

(** X1.  [toLocalMidnight] is idempotent on every date, the dates of the
    years 0 to 99 included: the year it returns is never one that the
    constructor re-reads. *)
Theorem toLocalMidnight_idempotent :
  forall d : Date,
    toLocalMidnight (toLocalMidnight d) = toLocalMidnight d.
Proof.
  intros d.
  rewrite (toLocalMidnight_plain (toLocalMidnight d))
    by apply toLocalMidnight_plainYear.
  reflexivity.
Qed.

(** Two dates have the same fields exactly when they are the same local
    day. *)
Lemma same_fields_same_day a b :
  getFullYear a = getFullYear b -> getMonth a = getMonth b ->
  getDate a = getDate b -> localDay a = localDay b.
Proof.
  intros Hy Hm Hd.
  pose proof (MakeDay_fields (localDay a) 0) as Ra.
  pose proof (MakeDay_fields (localDay b) 0) as Rb.
  unfold getFullYear, getMonth, getDate in *.
  rewrite Hy, Hm, Hd in Ra. lia.
Qed.

Lemma isSameDay_localDay a b :
  isSameDay a b = true <-> localDay a = localDay b.
Proof.
  unfold isSameDay. split.
  - intros H. apply andb_true_iff in H. destruct H as [H Hd].
    apply andb_true_iff in H. destruct H as [Hy Hm].
    apply Z.eqb_eq in Hy, Hm, Hd. apply same_fields_same_day; assumption.
  - intros E. unfold getFullYear, getMonth, getDate. rewrite E.
    rewrite !Z.eqb_refl. reflexivity.
Qed.

(** X2.  [isSameDay a b] holds exactly when [a] and [b] are the same
    local calendar day, whatever their times of day. *)
Theorem isSameDay_iff :
  forall a b : Date, isSameDay a b = true <-> localDay a = localDay b.
Proof. exact isSameDay_localDay. Qed.

Lemma isSameDay_iff_witness :
  isSameDay (mkDate 20313 0) (mkDate 20313 43200000) = true.
Proof. apply (proj2 (isSameDay_iff _ _)). reflexivity. Defined.

(** X3.  Outside the years 0 to 99, [toLocalMidnight] keeps the calendar
    day: its result is the same day as its argument by [isSameDay]. *)
Theorem toLocalMidnight_same_day :
  forall d : Date,
    plainYear d -> isSameDay (toLocalMidnight d) d = true.
Proof.
  intros d H. rewrite toLocalMidnight_plain by exact H.
  apply isSameDay_localDay. reflexivity.
Qed.

Lemma toLocalMidnight_same_day_witness :
  plainYear (mkDate 20313 43200000)
  /\ isSameDay (toLocalMidnight (mkDate 20313 43200000))
       (mkDate 20313 43200000) = true.
Proof.
  assert (P : plainYear (mkDate 20313 43200000))
    by (apply plainYear_recent; vm_compute; discriminate).
  split; [exact P |].
  exact (toLocalMidnight_same_day (mkDate 20313 43200000) P).
Defined.

Lemma LeapOfYear_century y : 1 <= y <= 99 -> LeapOfYear (1900 + y) = LeapOfYear y.
Proof.
  intros H. unfold LeapOfYear, DaysInYear.
  assert (E4 : (1900 + y) mod 4 = y mod 4) by divmod.
  assert (E100 : (1900 + y) mod 100 = y mod 100) by divmod.
  assert (N : y mod 100 <> 0) by divmod.
  rewrite E4, E100.
  destruct (Z.eqb_spec (y mod 100) 0); [contradiction |].
  cbn [negb]. destruct (negb (y mod 4 =? 0)); reflexivity.
Qed.

(** X4.  In the years 1 to 99, [toLocalMidnight] moves the date 1900
    years on: the result is the same month and day of the year
    [1900 + year]. *)
Theorem toLocalMidnight_two_digit_year :
  forall d : Date,
    1 <= getFullYear d <= 99 ->
    getFullYear (toLocalMidnight d) = 1900 + getFullYear d
    /\ getMonth (toLocalMidnight d) = getMonth d
    /\ getDate (toLocalMidnight d) = getDate d.
Proof.
  intros d H. unfold toLocalMidnight, newDate.
  rewrite MakeFullYear_legacy by lia.
  unfold getFullYear at 1, getMonth at 1, getDate at 1. cbn [localDay].
  apply fields_MakeDay; [apply getMonth_range |].
  pose proof (DateFromDay_range (localDay d)) as Hd.
  fold (getFullYear d) in Hd. fold (getMonth d) in Hd. fold (getDate d) in Hd.
  unfold daysOfMonth in *. rewrite LeapOfYear_century by exact H. exact Hd.
Qed.

Lemma toLocalMidnight_two_digit_year_witness :
  1 <= getFullYear (mkDate (-701000) 0) <= 99
  /\ getFullYear (toLocalMidnight (mkDate (-701000) 0)) = 1950.
Proof.
  assert (H : 1 <= getFullYear (mkDate (-701000) 0) <= 99)
    by (vm_compute; split; discriminate).
  split; [exact H |].
  exact (proj1 (toLocalMidnight_two_digit_year (mkDate (-701000) 0) H)).
Defined.

(** X5.  [daysBetween] is antisymmetric and is 0 between two dates of the
    same calendar day, in every time zone: the rounding absorbs what the
    zone adds or removes. *)
Theorem daysBetween_antisymmetric :
  forall (tz : TimeZone) (a b : Date),
    daysBetween tz a b = - daysBetween tz b a
    /\ (isSameDay a b = true -> daysBetween tz a b = 0).
Proof.
  intros tz a b. rewrite !daysBetween_days. split; [lia |].
  intros H. apply andb_true_iff in H. destruct H as [H Hd].
  apply andb_true_iff in H. destruct H as [Hy Hm].
  apply Z.eqb_eq in Hy, Hm, Hd.
  unfold toLocalMidnight. rewrite Hy, Hm, Hd. lia.
Qed.

Lemma daysBetween_antisymmetric_witness :
  isSameDay (mkDate 20313 0) (mkDate 20313 43200000) = true
  /\ daysBetween easternZone (mkDate 20313 0) (mkDate 20313 43200000) = 0.
Proof.
  assert (H : isSameDay (mkDate 20313 0) (mkDate 20313 43200000) = true)
    by reflexivity.
  split; [exact H |].
  exact (proj2 (daysBetween_antisymmetric easternZone _ _) H).
Defined.

(** X6.  [daysBetween] adds up along the way, and does not depend on the
    times of day of its arguments: it counts calendar days. *)
Theorem daysBetween_additive :
  forall (tz : TimeZone) (a b c : Date),
    daysBetween tz a c = daysBetween tz a b + daysBetween tz b c
    /\ (forall ta tb : Z,
           daysBetween tz (mkDate (localDay a) ta) (mkDate (localDay b) tb)
           = daysBetween tz a b).
Proof.
  intros tz a b c. rewrite !daysBetween_days.
  split; [lia |].
  intros ta tb. rewrite !daysBetween_days. reflexivity.
Qed.

(** X7.  [addDays] composes by calendar days, for every date and across
    month and year ends: adding [a] days and then [b] lands on the day
    that adding [a + b] lands on, adding 0 days stays on the day, and
    adding [-a] leads back to the day that adding [a] left. *)
Theorem addDays_compose :
  forall (d : Date) (a b : Z),
    isSameDay (addDays (addDays d a) b) (addDays d (a + b)) = true
    /\ isSameDay (addDays d 0) d = true
    /\ isSameDay (addDays (addDays d a) (- a)) d = true.
Proof.
  intros d a b. rewrite !isSameDay_localDay, !addDays_day.
  cbn [localDay]. repeat split; lia.
Qed.

(** X8.  Moving a date by [n] days and measuring back with [daysBetween]
    gives [n], when both dates have a year outside 0 to 99. *)
Theorem daysBetween_addDays :
  forall (tz : TimeZone) (d : Date) (n : Z),
    plainYear d -> plainYear (addDays d n) ->
    daysBetween tz d (addDays d n) = n.
Proof.
  intros tz d n H1 H2. rewrite daysBetween_plain by assumption.
  rewrite addDays_day. cbn [localDay]. lia.
Qed.

Lemma daysBetween_addDays_witness :
  daysBetween easternZone (newDate 2025 9 30) (addDays (newDate 2025 9 30) 5) = 5.
Proof.
  apply daysBetween_addDays; apply plainYear_recent; vm_compute; discriminate.
Defined.

Lemma addMonths_fits d j :
  getDate d <= daysOfMonth (getFullYear d + (getMonth d + j) / 12)
                           ((getMonth d + j) mod 12) ->
  getFullYear (addMonths d j) = getFullYear d + (getMonth d + j) / 12
  /\ getMonth (addMonths d j) = (getMonth d + j) mod 12
  /\ getDate (addMonths d j) = getDate d.
Proof.
  intros H. rewrite addMonths_day.
  unfold getFullYear at 1, getMonth at 1, getDate at 1. cbn [localDay].
  apply fields_MakeDay.
  - pose proof (Z.mod_pos_bound (getMonth d + j) 12 ltac:(lia)). lia.
  - pose proof (getDate_range d). lia.
Qed.

(** X9.  On a day of the month up to 28, [addMonths] composes and can be
    undone, by calendar days: [n] months on and [k] more is the day that
    [n + k] months on gives, [n] months on and [n] months back is the day
    one started from, and the day of the month stays. *)
Theorem addMonths_compose :
  forall (d : Date) (n k : Z),
    getDate d <= 28 ->
    isSameDay (addMonths (addMonths d n) k) (addMonths d (n + k)) = true
    /\ isSameDay (addMonths (addMonths d n) (- n)) d = true
    /\ getDate (addMonths d n) = getDate d.
Proof.
  intros d n k H.
  assert (F : forall j,
             getFullYear (addMonths d j) = getFullYear d + (getMonth d + j) / 12
             /\ getMonth (addMonths d j) = (getMonth d + j) mod 12
             /\ getDate (addMonths d j) = getDate d).
  { intros j. apply addMonths_fits.
    pose proof (Z.mod_pos_bound (getMonth d + j) 12 ltac:(lia)) as Hm.
    pose proof (daysOfMonth_range (getFullYear d + (getMonth d + j) / 12)
                  ((getMonth d + j) mod 12) ltac:(lia)). lia. }
  assert (C : forall j, addMonths (addMonths d n) j = addMonths d (n + j)).
  { intros j. rewrite (addMonths_day (addMonths d n)), (addMonths_day d (n + j)).
    destruct (F n) as [Fy [Fm Fd]]. rewrite Fy, Fm, Fd.
    replace (timeInDay (addMonths d n)) with (timeInDay d)
      by (rewrite addMonths_day; reflexivity).
    f_equal.
    pose proof (getMonth_range d) as Hr.
    assert (E : getFullYear d + (getMonth d + n) / 12
                + ((getMonth d + n) mod 12 + j) / 12
                = getFullYear d + (getMonth d + (n + j)) / 12) by divmod.
    assert (E' : ((getMonth d + n) mod 12 + j) mod 12
                 = (getMonth d + (n + j)) mod 12) by divmod.
    rewrite E, E'. reflexivity. }
  split; [rewrite C; apply isSameDay_localDay; reflexivity
         | split; [| apply F]].
  apply isSameDay_localDay.
  rewrite C. replace (n + - n) with 0 by lia.
  rewrite addMonths_day. rewrite Z.add_0_r.
  pose proof (getMonth_range d) as Hr.
  rewrite (Z.div_small (getMonth d) 12), (Z.mod_small (getMonth d) 12) by lia.
  rewrite Z.add_0_r.
  pose proof (MakeDay_fields (localDay d) 0) as R.
  fold (getFullYear d) in R. fold (getMonth d) in R. fold (getDate d) in R.
  rewrite !Z.add_0_r in R. rewrite R. reflexivity.
Qed.

Lemma addMonths_compose_witness :
  getDate (newDate 2025 11 15) <= 28
  /\ isSameDay (addMonths (addMonths (newDate 2025 11 15) 1) (-1))
       (newDate 2025 11 15) = true.
Proof.
  assert (H : getDate (newDate 2025 11 15) <= 28) by (vm_compute; discriminate).
  split; [exact H |].
  exact (proj1 (proj2 (addMonths_compose (newDate 2025 11 15) 1 0 H))).
Defined.

(* ================================================================== *)
(** * Part XI: further properties of the assignment                    *)
(* ================================================================== *)

(** X10.  The assignee of a date depends on its calendar day alone: not
    on its time of day, and not on the time zone. *)
Theorem getAssigneeForDate_calendar_day :
  forall (tz tz' : TimeZone) (tenants : list Tenant) (anchor : Date)
         (duty : Z) (d d' : Date),
    localDay d = localDay d' ->
    getAssigneeForDate tz tenants anchor duty d
    = getAssigneeForDate tz' tenants anchor duty d'.
Proof.
  intros tz tz' tenants anchor duty d d' E.
  unfold getAssigneeForDate, getDay. rewrite E.
  destruct (negb (WeekDay (localDay d') =? duty)); [reflexivity |].
  rewrite !daysBetween_days.
  unfold toLocalMidnight, getFullYear, getMonth, getDate. rewrite E.
  reflexivity.
Qed.

Lemma getAssigneeForDate_calendar_day_witness :
  getAssigneeForDate utcZone TENANTS ROTATION_START WEDNESDAY (mkDate 20320 0)
  = getAssigneeForDate easternZone TENANTS ROTATION_START WEDNESDAY
      (mkDate 20320 72000000).
Proof. apply getAssigneeForDate_calendar_day. reflexivity. Defined.

(** X11.  With an anchor from the year 2000 on and at least one tenant:
    on a duty day on or after the anchor, the duty of the week after goes
    to the next tenant of the list, and after the last tenant to the
    first. *)
Theorem next_week_next_tenant :
  forall (tz : TimeZone) (tenants : list Tenant) (anchor : Date) (duty : Z)
         (d : Date),
    recentAnchor anchor -> tenants <> [] ->
    getDay d = duty -> localDay anchor <= localDay d ->
    exists i : nat,
      (i < List.length tenants)%nat
      /\ getAssigneeForDate tz tenants anchor duty d = nth_error tenants i
      /\ getAssigneeForDate tz tenants anchor duty (addDays d 7)
         = nth_error tenants ((i + 1) mod List.length tenants).
Proof.
  intros tz tenants anchor duty d Ha Hne Hd Hle.
  assert (Hl : List.length tenants <> 0%nat) by (destruct tenants; cbn; congruence).
  set (n := List.length tenants) in *.
  set (w := (localDay d - localDay anchor) / 7).
  assert (Hw : 0 <= w) by (unfold w; apply Z.div_pos; lia).
  exists (Z.to_nat w mod n)%nat.
  split; [apply Nat.mod_upper_bound; exact Hl |].
  assert (G : forall k : Z, 0 <= k ->
            index tenants (Z.rem k (Z.of_nat n))
            = nth_error tenants (Z.to_nat k mod n)).
  { intros k Hk. rewrite Z.rem_mod_nonneg by lia.
    rewrite index_nth_error by (apply Z.mod_pos_bound; lia).
    f_equal. apply Nat2Z.inj.
    rewrite Nat2Z.inj_mod, !Z2Nat.id; try lia.
    apply Z.mod_pos_bound; lia. }
  split.
  - rewrite assignee_after_anchor by assumption. fold n. fold w. apply G, Hw.
  - rewrite assignee_after_anchor; [| exact Ha | |].
    + fold n. rewrite addDays_day. cbn [localDay].
      replace (localDay d + 7 - localDay anchor)
        with ((localDay d - localDay anchor) + 1 * 7) by lia.
      rewrite Z.div_add by lia. fold w. rewrite G by lia. f_equal.
      replace (Z.to_nat (w + 1)) with (Z.to_nat w + 1)%nat by lia.
      rewrite Nat.Div0.add_mod_idemp_l. reflexivity.
    + rewrite getDay_addDays, Hd. pose proof (getDay_range d). divmod.
    + rewrite addDays_day. cbn [localDay]. lia.
Qed.

Lemma next_week_next_tenant_witness :
  exists i : nat,
    (i < List.length TENANTS)%nat
    /\ getAssigneeForDate easternZone TENANTS ROTATION_START THURSDAY
         (newDate 2025 8 11) = nth_error TENANTS i
    /\ getAssigneeForDate easternZone TENANTS ROTATION_START THURSDAY
         (addDays (newDate 2025 8 11) 7)
       = nth_error TENANTS ((i + 1) mod List.length TENANTS).
Proof.
  apply next_week_next_tenant.
  - apply ROTATION_START_recent.
  - discriminate.
  - reflexivity.
  - vm_compute; discriminate.
Defined.

(** X12.  The two variants agree a day apart: in the Thursday variant,
    which keeps the Wednesday anchor, every Thursday goes to the tenant
    that the Wednesday variant gives the day before. *)
Theorem thursday_follows_wednesday :
  forall (tz : TimeZone) (d : Date),
    getDay d = THURSDAY ->
    Thursday.getAssigneeForDate tz d
    = Wednesday.getAssigneeForDate tz (addDays d (-1)).
Proof.
  intros tz d Hd.
  unfold Thursday.getAssigneeForDate, Wednesday.getAssigneeForDate.
  assert (Hw : getDay (addDays d (-1)) = WEDNESDAY)
    by (rewrite getDay_addDays, Hd; reflexivity).
  pose proof ROTATION_START_recent as Ha.
  pose proof ROTATION_START_day as Hs.
  assert (Hm : localDay d mod 7 = 0)
    by (unfold getDay, WeekDay, THURSDAY in Hd; divmod).
  destruct (Z_lt_dec (localDay d) (localDay ROTATION_START)) as [Hb | Hb].
  - rewrite !first_tenant_before_anchor; try assumption; try reflexivity.
    rewrite addDays_day. cbn [localDay]. lia.
  - assert (Hne : localDay d <> 20313) by (intros E; rewrite E in Hm; discriminate Hm).
    rewrite !assignee_after_anchor; try assumption.
    + rewrite addDays_day. cbn [localDay]. rewrite Hs. do 2 f_equal. divmod.
    + rewrite addDays_day. cbn [localDay]. lia.
    + lia.
Qed.

Lemma thursday_follows_wednesday_witness :
  Thursday.getAssigneeForDate easternZone (newDate 2025 7 21)
  = Wednesday.getAssigneeForDate easternZone (addDays (newDate 2025 7 21) (-1)).
Proof. apply thursday_follows_wednesday. reflexivity. Defined.

(* ================================================================== *)
(** * Part XII: further properties of the scans                        *)
(* ================================================================== *)

Section MoreScans.

Variable tz : TimeZone.
Variable tenants : list Tenant.
Variable anchor : Date.
Variable duty : Z.
Variable today : Date.

Local Abbreviation assignee := (getAssigneeForDate tz tenants anchor duty).
Local Abbreviation loop60 := (upcoming_loop tz tenants anchor duty today).
Local Abbreviation entry := (entryAt tz tenants anchor duty today).
Local Abbreviation offset0 := (firstOffset duty today).

Lemma loop60_miss s i acc :
  getDay (addDays today i) <> duty -> loop60 (S s) i acc = loop60 s (i + 1) acc.
Proof.
  intros H. cbn [upcoming_loop].
  destruct (Z.eqb_spec (getDay (addDays today i)) duty); [contradiction | reflexivity].
Qed.

Lemma loop60_hit s i acc :
  getDay (addDays today i) = duty ->
  loop60 (S s) i acc = loop60 s (i + 1) (acc ++ [entry i]).
Proof.
  intros H. cbn [upcoming_loop].
  destruct (Z.eqb_spec (getDay (addDays today i)) duty); [reflexivity | contradiction].
Qed.

Lemma loop60_skip m : forall s i acc,
  (forall j, 0 <= j < Z.of_nat m -> getDay (addDays today (i + j)) <> duty) ->
  loop60 (m + s) i acc = loop60 s (i + Z.of_nat m) acc.
Proof.
  induction m as [| m IH]; intros s i acc H.
  - cbn [Nat.add]. f_equal. lia.
  - cbn [Nat.add]. rewrite loop60_miss.
    + rewrite IH.
      * f_equal. lia.
      * intros j Hj. replace (i + 1 + j) with (i + (1 + j)) by lia.
        apply H. lia.
    + replace i with (i + 0) at 1 by lia. apply H. lia.
Qed.

(** From a duty day, [s] passes find the duty days a week apart: [k] of
    them when [s] is in the [k]-th block of seven. *)
Lemma loop60_from_hit k : forall s i acc,
  getDay (addDays today i) = duty ->
  (s <= 7 * k < s + 7)%nat ->
  loop60 s i acc
  = acc ++ map (fun j : nat => entry (i + 7 * Z.of_nat j)) (seq 0 k).
Proof.
  induction k as [| k IH]; intros s i acc Hh Hs.
  - assert (s = 0%nat) as -> by lia. cbn. rewrite app_nil_r. reflexivity.
  - destruct s as [| s]; [lia |].
    rewrite loop60_hit by exact Hh.
    change (seq 0 (S k)) with (0%nat :: seq 1 k).
    rewrite <- seq_shift, map_cons, map_map.
    replace (i + 7 * Z.of_nat 0) with i by lia.
    destruct (le_lt_dec 6 s) as [H6 | H6].
    + replace s with (6 + (s - 6))%nat by lia.
      rewrite loop60_skip.
      * rewrite IH.
        -- rewrite <- app_assoc. cbn [app]. do 2 f_equal.
           apply map_ext. intros j. f_equal. lia.
        -- replace (i + 1 + Z.of_nat 6) with (i + 7) by lia.
           apply (hit_week_later duty today). exact Hh.
        -- lia.
      * intros j Hj. replace (i + 1 + j) with (i + (1 + j)) by lia.
        apply (miss_within_week duty today); [exact Hh | lia].
    + assert (k = 0%nat) as -> by lia.
      replace s with (s + 0)%nat by lia.
      rewrite loop60_skip.
      * cbn. reflexivity.
      * intros j Hj. replace (i + 1 + j) with (i + (1 + j)) by lia.
        apply (miss_within_week duty today); [exact Hh | lia].
Qed.

(** The upcoming list, in closed form. *)
Lemma upcoming_closed_form :
  0 <= duty <= 6 ->
  upcoming tz tenants anchor duty today
  = map (fun j : nat => entry (offset0 + 7 * Z.of_nat j))
        (seq 0 (if offset0 <=? 3 then 9%nat else 8%nat)).
Proof.
  intros Hd. unfold upcoming.
  pose proof (firstOffset_range duty today) as Hr.
  replace 60%nat with (Z.to_nat offset0 + (60 - Z.to_nat offset0))%nat by lia.
  rewrite loop60_skip.
  - rewrite Z2Nat.id by lia. cbn [Z.add].
    rewrite (loop60_from_hit (if offset0 <=? 3 then 9%nat else 8%nat));
      [reflexivity | apply hit_firstOffset; exact Hd |].
    destruct (Z.leb_spec offset0 3); lia.
  - intros j Hj. cbn [Z.add]. apply miss_before_firstOffset. lia.
Qed.

End MoreScans.

(** X13.  For a duty weekday 0..6 and every start date, [upcoming] (the
    scan of 60 days) lists every duty weekday of the 60 days from the
    start date and nothing else, each once and in order of date: nine
    entries when the first duty day is at most three days away, eight
    otherwise. *)
Theorem upcoming_spec :
  forall (tz : TimeZone) (tenants : list Tenant) (anchor : Date) (duty : Z)
         (today : Date),
    0 <= duty <= 6 ->
    let l := upcoming tz tenants anchor duty today in
    List.length l = (if firstOffset duty today <=? 3 then 9%nat else 8%nat)
    /\ (forall e : Entry.t,
           In e l <->
           exists i : Z,
             0 <= i < 60 /\ getDay (addDays today i) = duty
             /\ e = entryAt tz tenants anchor duty today i)
    /\ (forall (i j : nat) (a b : Entry.t),
           (i < j)%nat -> nth_error l i = Some a -> nth_error l j = Some b ->
           localDay (Entry.date a) < localDay (Entry.date b)).
Proof.
  intros tz tenants anchor duty today Hd l. subst l.
  rewrite upcoming_closed_form by exact Hd.
  pose proof (firstOffset_range duty today) as Hr.
  pose proof (hit_firstOffset duty today Hd) as Hh.
  set (f := firstOffset duty today) in *.
  set (m := if f <=? 3 then 9%nat else 8%nat).
  assert (Hm : 53 <= f + 7 * Z.of_nat m - 7 < 60 /\ 60 <= f + 7 * Z.of_nat m)
    by (unfold m; destruct (Z.leb_spec f 3); lia).
  split; [rewrite length_map, length_seq; reflexivity |].
  split.
  - intros e. split.
    + intros He. apply in_map_iff in He. destruct He as [j [<- Hj]].
      apply in_seq in Hj. exists (f + 7 * Z.of_nat j).
      split; [lia | split; [| reflexivity]].
      replace (f + 7 * Z.of_nat j) with (f + Z.of_nat j * 7) by lia.
      rewrite getDay_addDays, Z.add_assoc, Z.mod_add by lia.
      rewrite <- getDay_addDays. exact Hh.
    + intros [i [Hi [Hdi ->]]].
      assert (Hk : exists k : nat, i = f + 7 * Z.of_nat k).
      { exists (Z.to_nat ((i - f) / 7)).
        rewrite getDay_addDays in Hdi, Hh.
        pose proof (getDay_range today) as Hg.
        assert (f <= i).
        { destruct (Z_le_gt_dec f i) as [L | L]; [exact L |].
          exfalso. apply (miss_before_firstOffset duty today i ltac:(fold f; lia)).
          rewrite getDay_addDays. exact Hdi. }
        rewrite Z2Nat.id by (apply Z.div_pos; lia). divmod. }
      destruct Hk as [k ->]. apply in_map_iff. exists k.
      split; [reflexivity | apply in_seq; lia].
  - intros i j a b Hij Ha Hb.
    apply nth_error_map_seq in Ha, Hb. destruct Ha as [_ ->], Hb as [_ ->].
    unfold entryAt. cbn [Entry.date]. rewrite !addDays_day. cbn [localDay]. lia.
Qed.

Lemma upcoming_spec_witness :
  List.length (upcoming easternZone TENANTS ROTATION_START THURSDAY
                 (newDate 2025 10 2))
  = (if firstOffset THURSDAY (newDate 2025 10 2) <=? 3 then 9%nat else 8%nat).
Proof.
  assert (H : 0 <= THURSDAY <= 6) by (unfold THURSDAY; lia).
  exact (proj1 (upcoming_spec easternZone TENANTS ROTATION_START THURSDAY
                  (newDate 2025 10 2) H)).
Defined.

(** X14.  The upcoming list is the beginning of the twelve-week list: its
    eight or nine entries are the first entries of [twelveWeeks], in the
    same order and with the same assignees. *)
Theorem upcoming_prefix_of_twelveWeeks :
  forall (tz : TimeZone) (tenants : list Tenant) (anchor : Date) (duty : Z)
         (today : Date),
    0 <= duty <= 6 ->
    upcoming tz tenants anchor duty today
    = firstn (List.length (upcoming tz tenants anchor duty today))
             (twelveWeeks tz tenants anchor duty today).
Proof.
  intros tz tenants anchor duty today Hd.
  rewrite upcoming_closed_form, twelveWeeks_closed_form by exact Hd.
  rewrite length_map, length_seq, firstn_map.
  destruct (firstOffset duty today <=? 3); reflexivity.
Qed.

Lemma upcoming_prefix_of_twelveWeeks_witness :
  upcoming easternZone TENANTS ROTATION_START WEDNESDAY (newDate 2025 10 2)
  = firstn (List.length (upcoming easternZone TENANTS ROTATION_START WEDNESDAY
                           (newDate 2025 10 2)))
           (twelveWeeks easternZone TENANTS ROTATION_START WEDNESDAY
              (newDate 2025 10 2)).
Proof.
  apply upcoming_prefix_of_twelveWeeks. unfold WEDNESDAY. lia.
Defined.

(** X15.  The twelve entries of [twelveWeeks] are exactly a week apart:
    each entry's date is the calendar day seven days after the date of
    the entry before; and each entry is paired with the assignee that
    [getAssigneeForDate] gives its date. *)
Theorem twelveWeeks_weekly :
  forall (tz : TimeZone) (tenants : list Tenant) (anchor : Date) (duty : Z)
         (today : Date),
    0 <= duty <= 6 ->
    let l := twelveWeeks tz tenants anchor duty today in
    (forall (k : nat) (e e' : Entry.t),
        nth_error l k = Some e -> nth_error l (S k) = Some e' ->
        isSameDay (Entry.date e') (addDays (Entry.date e) 7) = true)
    /\ (forall e : Entry.t,
           In e l ->
           Entry.who e = getAssigneeForDate tz tenants anchor duty (Entry.date e)).
Proof.
  intros tz tenants anchor duty today Hd l. subst l.
  rewrite twelveWeeks_closed_form by exact Hd. split.
  - intros k e e' He He'.
    apply nth_error_map_seq in He, He'. destruct He as [_ ->], He' as [_ ->].
    unfold entryAt. cbn [Entry.date]. apply isSameDay_localDay.
    rewrite !addDays_day. cbn [localDay]. lia.
  - intros e He. apply in_map_iff in He. destruct He as [j [<- _]].
    reflexivity.
Qed.

Lemma twelveWeeks_weekly_witness :
  isSameDay
    (Entry.date (entryAt easternZone TENANTS ROTATION_START THURSDAY
                   (newDate 2025 9 2) 7))
    (addDays (Entry.date (entryAt easternZone TENANTS ROTATION_START THURSDAY
                            (newDate 2025 9 2) 0)) 7)
  = true.
Proof.
  assert (H : 0 <= THURSDAY <= 6) by (unfold THURSDAY; lia).
  apply (proj1 (twelveWeeks_weekly easternZone TENANTS ROTATION_START THURSDAY
                  (newDate 2025 9 2) H) 0%nat);
    vm_compute; reflexivity.
Defined.

(** Weeks after a duty day on or after the anchor, the rotation has moved
    on by as many tenants. *)
Lemma assignee_weeks_later tz tenants a duty start (k : nat) :
  recentAnchor a -> tenants <> [] -> getDay start = duty ->
  localDay a <= localDay start ->
  getAssigneeForDate tz tenants a duty (addDays start (7 * Z.of_nat k))
  = nth_error tenants
      ((Z.to_nat ((localDay start - localDay a) / 7) + k)
       mod List.length tenants).
Proof.
  intros Ha Hne Hd Hle.
  assert (Hl : List.length tenants <> 0%nat) by (destruct tenants; cbn; congruence).
  rewrite assignee_after_anchor; [| exact Ha | |].
  - rewrite addDays_day. cbn [localDay].
    replace (localDay start + 7 * Z.of_nat k - localDay a)
      with ((localDay start - localDay a) + Z.of_nat k * 7) by lia.
    rewrite Z.div_add by lia.
    set (w := (localDay start - localDay a) / 7).
    assert (Hw : 0 <= w) by (unfold w; apply Z.div_pos; lia).
    rewrite Z.rem_mod_nonneg by lia.
    rewrite index_nth_error by (apply Z.mod_pos_bound; lia).
    f_equal. apply Nat2Z.inj.
    rewrite Nat2Z.inj_mod, Nat2Z.inj_add, !Z2Nat.id; try lia.
    apply Z.mod_pos_bound; lia.
  - rewrite getDay_addDays, Hd.
    replace (duty + 7 * Z.of_nat k) with (duty + Z.of_nat k * 7) by lia.
    rewrite Z.mod_add by lia. apply Z.mod_small.
    rewrite <- Hd. pose proof (getDay_range start). lia.
  - rewrite addDays_day. cbn [localDay]. lia.
Qed.

(** X16.  With an anchor from the year 2000 on, a start date on or after
    it and at least one tenant, the twelve entries of [twelveWeeks] take
    the tenants in the order of the list, round and round: entry [k] has
    the tenant at position [(w + k) mod tenants.length], for the week [w]
    of the first entry. *)
Theorem twelveWeeks_in_rotation_order :
  forall (tz : TimeZone) (tenants : list Tenant) (anchor : Date) (duty : Z)
         (today : Date),
    0 <= duty <= 6 -> recentAnchor anchor -> tenants <> [] ->
    localDay anchor <= localDay today ->
    exists w : nat,
      map Entry.who (twelveWeeks tz tenants anchor duty today)
      = map (fun k : nat => nth_error tenants ((w + k) mod List.length tenants))
            (seq 0 12).
Proof.
  intros tz tenants anchor duty today Hd Ha Hne Hle.
  pose proof (firstOffset_range duty today) as Hr.
  set (f := firstOffset duty today) in *.
  exists (Z.to_nat ((localDay (addDays today f) - localDay anchor) / 7)).
  rewrite twelveWeeks_closed_form by exact Hd. rewrite map_map.
  apply map_ext. intros k. unfold entryAt. cbn [Entry.who]. fold f.
  rewrite <- (assignee_weeks_later tz tenants anchor duty (addDays today f) k);
    try assumption.
  - f_equal. rewrite !addDays_day. cbn [localDay timeInDay]. f_equal. lia.
  - apply hit_firstOffset. exact Hd.
  - rewrite addDays_day. cbn [localDay]. lia.
Qed.

Lemma twelveWeeks_in_rotation_order_witness :
  exists w : nat,
    map Entry.who (twelveWeeks easternZone TENANTS ROTATION_START THURSDAY
                     (newDate 2025 10 2))
    = map (fun k : nat => nth_error TENANTS ((w + k) mod List.length TENANTS))
          (seq 0 12).
Proof.
  apply twelveWeeks_in_rotation_order.
  - unfold THURSDAY; lia.
  - apply ROTATION_START_recent.
  - discriminate.
  - vm_compute; discriminate.
Defined.

(** X17.  When [nextForSelected] returns nothing for an identifier that is
    not empty, no duty day of the 365 days from the start date is assigned
    to a tenant with that identifier; for the empty identifier it returns
    nothing whatever the tenants. *)
Theorem nextForSelected_none :
  forall (tz : TimeZone) (tenants : list Tenant) (anchor : Date) (duty : Z)
         (today : Date) (selectedTenantId : string),
    (selectedTenantId <> EmptyString ->
     nextForSelected tz tenants anchor duty today selectedTenantId = None ->
     forall i : Z,
       0 <= i < 365 ->
       ~ turnOf tz tenants anchor duty selectedTenantId (addDays today i))
    /\ nextForSelected tz tenants anchor duty today EmptyString = None.
Proof.
  intros tz tenants anchor duty today sel. split; [| reflexivity].
  intros Hne H i Hi. unfold nextForSelected in H.
  destruct (String.eqb_spec sel EmptyString) as [E | _]; [contradiction |].
  pose proof (loop365_none tz tenants anchor duty today sel 365 0 H i) as N.
  cbn [Z.add] in N. apply N. lia.
Qed.

Lemma nextForSelected_none_witness :
  ~ turnOf utcZone TENANTS ROTATION_START WEDNESDAY "9"
      (addDays (newDate 2025 7 15) 12).
Proof.
  apply (proj1 (nextForSelected_none utcZone TENANTS ROTATION_START WEDNESDAY
                  (newDate 2025 7 15) "9")).
  - discriminate.
  - vm_compute; reflexivity.
  - lia.
Defined.

(** X18.  With an anchor from the year 2000 on, a start date on or after
    it, a duty weekday 0..6 and at most 52 tenants, [nextForSelected]
    finds a date for every identifier that a tenant has (the empty one
    apart), within as many weeks as there are tenants. *)
Theorem nextForSelected_finds_tenant :
  forall (tz : TimeZone) (tenants : list Tenant) (anchor : Date) (duty : Z)
         (today : Date) (selectedTenantId : string),
    0 <= duty <= 6 -> recentAnchor anchor ->
    localDay anchor <= localDay today ->
    (List.length tenants <= 52)%nat ->
    selectedTenantId <> EmptyString ->
    In selectedTenantId (map id tenants) ->
    exists i : Z,
      0 <= i < 7 * Z.of_nat (List.length tenants)
      /\ nextForSelected tz tenants anchor duty today selectedTenantId
         = Some (addDays today i).
Proof.
  intros tz tenants anchor duty today sel Hd Ha Hle Hn Hne Hin.
  pose proof (firstOffset_range duty today) as Hr.
  set (f := firstOffset duty today) in *.
  pose proof (hit_firstOffset duty today Hd) as Hh. fold f in Hh.
  apply in_map_iff in Hin. destruct Hin as [t [Hid Ht]].
  assert (P : Permutation
                (consecutiveAssignees tz tenants anchor duty (addDays today f))
                (map Some tenants)).
  { apply full_cycle_after_anchor; [exact Ha | exact Hh |].
    rewrite addDays_day. cbn [localDay]. lia. }
  assert (I : In (Some t) (consecutiveAssignees tz tenants anchor duty
                             (addDays today f))).
  { apply (Permutation_in _ (Permutation_sym P)). apply in_map. exact Ht. }
  apply in_map_iff in I. destruct I as [k [Hk Hks]]. apply in_seq in Hks.
  assert (T : turnOf tz tenants anchor duty sel
                (addDays today (f + 7 * Z.of_nat k))).
  { replace (addDays today (f + 7 * Z.of_nat k))
      with (addDays (addDays today f) (7 * Z.of_nat k))
      by (rewrite !addDays_day; cbn [localDay timeInDay]; f_equal; lia).
    split.
    - rewrite getDay_addDays, Hh. pose proof (getDay_range (addDays today f)).
      rewrite Hh in *. divmod.
    - exists t. split; assumption. }
  unfold nextForSelected.
  destruct (String.eqb_spec sel EmptyString) as [E | _]; [contradiction |].
  destruct (nextForSelected_loop tz tenants anchor duty today sel 365 0)
    as [c |] eqn:E.
  - apply loop365_some in E. destruct E as [i [Hi [Hc [_ Hb]]]].
    cbn [Z.add] in *. exists i. split; [| rewrite Hc; reflexivity].
    destruct (Z_lt_dec (f + 7 * Z.of_nat k) i) as [L | L]; [| lia].
    exfalso. apply (Hb (f + 7 * Z.of_nat k)); [lia | exact T].
  - exfalso.
    apply (loop365_none tz tenants anchor duty today sel 365 0 E
             (f + 7 * Z.of_nat k)); [lia | exact T].
Qed.

Lemma nextForSelected_finds_tenant_witness :
  exists i : Z,
    0 <= i < 7 * Z.of_nat (List.length TENANTS)
    /\ nextForSelected easternZone TENANTS ROTATION_START THURSDAY
         (newDate 2025 9 2) "4" = Some (addDays (newDate 2025 9 2) i).
Proof.
  apply nextForSelected_finds_tenant.
  - unfold THURSDAY; lia.
  - apply ROTATION_START_recent.
  - vm_compute; discriminate.
  - cbn; lia.
  - discriminate.
  - cbn; tauto.
Defined.

Lemma find_by_unique_id (l : list Tenant) (t : Tenant) :
  NoDup (map id l) -> In t l ->
  find (fun x => String.eqb (id x) (id t)) l = Some t.
Proof.
  induction l as [| x l IH]; intros N I; [contradiction |].
  cbn [map] in N. inversion N as [| ? ? Hx Hl]; subst.
  cbn [find]. destruct I as [-> | I].
  - rewrite String.eqb_refl. reflexivity.
  - destruct (String.eqb_spec (id x) (id t)) as [E | _].
    + exfalso. apply Hx. rewrite E. apply in_map. exact I.
    + apply IH; assumption.
Qed.

(** X19.  When the tenants have distinct identifiers (as those of the
    source have), the date that [nextForSelected] returns is assigned to
    the very tenant that [selectedTenant] finds for the identifier: the
    "Next for ..." line shows a date of the tenant it names. *)
Theorem nextForSelected_is_selectedTenant :
  forall (tz : TimeZone) (tenants : list Tenant) (anchor : Date) (duty : Z)
         (today : Date) (selectedTenantId : string) (c : Date),
    NoDup (map id tenants) ->
    nextForSelected tz tenants anchor duty today selectedTenantId = Some c ->
    exists t : Tenant,
      selectedTenant tenants selectedTenantId = Some t
      /\ getAssigneeForDate tz tenants anchor duty c = Some t.
Proof.
  intros tz tenants anchor duty today sel c N H.
  unfold nextForSelected in H.
  destruct (String.eqb sel EmptyString); [discriminate |].
  apply loop365_some in H. destruct H as [_ [_ [_ [[_ [t [Ht Hid]]] _]]]].
  exists t. split; [| exact Ht].
  unfold selectedTenant. rewrite <- Hid.
  apply find_by_unique_id; [exact N |]. eapply assignee_In. exact Ht.
Qed.

Lemma nextForSelected_is_selectedTenant_witness :
  NoDup (map id TENANTS)
  /\ exists t : Tenant,
       selectedTenant TENANTS "3" = Some t
       /\ getAssigneeForDate easternZone TENANTS ROTATION_START WEDNESDAY
            (newDate 2025 7 27) = Some t.
Proof.
  assert (N : NoDup (map id TENANTS)).
  { cbn. repeat constructor; cbn; intuition discriminate. }
  split; [exact N |].
  apply (nextForSelected_is_selectedTenant easternZone TENANTS ROTATION_START
           WEDNESDAY (newDate 2025 7 15) "3" (newDate 2025 7 27) N).
  vm_compute; reflexivity.
Defined.

(** X20.  A date that [nextForSelected] returns within twelve weeks of the
    start date is the date of an entry of [twelveWeeks], and that entry
    names a tenant with the selected identifier. *)
Theorem nextForSelected_in_twelveWeeks :
  forall (tz : TimeZone) (tenants : list Tenant) (anchor : Date) (duty : Z)
         (today : Date) (selectedTenantId : string) (i : Z),
    0 <= duty <= 6 -> i < 84 ->
    nextForSelected tz tenants anchor duty today selectedTenantId
    = Some (addDays today i) ->
    exists (e : Entry.t) (t : Tenant),
      In e (twelveWeeks tz tenants anchor duty today)
      /\ Entry.date e = addDays today i
      /\ Entry.who e = Some t /\ id t = selectedTenantId.
Proof.
  intros tz tenants anchor duty today sel i Hd Hi H.
  unfold nextForSelected in H.
  destruct (String.eqb sel EmptyString); [discriminate |].
  apply loop365_some in H. destruct H as [j [Hj [Hc [[Hday [t [Ht Hid]]] _]]]].
  cbn [Z.add] in Hc.
  assert (Eij : i = j).
  { rewrite !addDays_day in Hc. injection Hc as Hc. lia. }
  subst j.
  pose proof (firstOffset_range duty today) as Hr.
  set (f := firstOffset duty today) in *.
  assert (Hf : f <= i).
  { destruct (Z_le_gt_dec f i) as [L | L]; [exact L |].
    exfalso. apply (miss_before_firstOffset duty today i ltac:(fold f; lia)).
    exact Hday. }
  assert (Hk : i = f + 7 * Z.of_nat (Z.to_nat ((i - f) / 7))).
  { pose proof (hit_firstOffset duty today Hd) as Hh. fold f in Hh.
    rewrite getDay_addDays in Hday, Hh. pose proof (getDay_range today).
    rewrite Z2Nat.id by (apply Z.div_pos; lia). divmod. }
  exists (entryAt tz tenants anchor duty today i), t.
  split; [| split; [reflexivity | split; [exact Ht | exact Hid]]].
  rewrite twelveWeeks_closed_form by exact Hd. fold f.
  apply in_map_iff. exists (Z.to_nat ((i - f) / 7)).
  split; [rewrite <- Hk; reflexivity |].
  apply in_seq. assert ((i - f) / 7 < 12) by divmod. lia.
Qed.

Lemma nextForSelected_in_twelveWeeks_witness :
  exists (e : Entry.t) (t : Tenant),
    In e (twelveWeeks easternZone TENANTS ROTATION_START WEDNESDAY
            (newDate 2025 7 15))
    /\ Entry.date e = addDays (newDate 2025 7 15) 12
    /\ Entry.who e = Some t /\ id t = "3"%string.
Proof.
  apply nextForSelected_in_twelveWeeks.
  - unfold WEDNESDAY; lia.
  - lia.
  - vm_compute; reflexivity.
Defined.

(* ================================================================== *)
(** * Part XIII: further properties of the month grid                  *)
(* ================================================================== *)

(** A day lies in month [m] of year [y] exactly from the first of the
    month up to the month's length. *)
Lemma in_month_iff (y m n : Z) :
  0 <= m <= 11 ->
  (YearFromDay n = y /\ MonthFromDay n = m)
  <-> MakeDay y m 1 <= n < MakeDay y m 1 + daysOfMonth y m.
Proof.
  intros Hm. split.
  - intros [Hy Hmo].
    pose proof (MakeDay_fields n 0) as R. rewrite Hy, Hmo in R.
    pose proof (DateFromDay_range n) as Hd. rewrite Hy, Hmo in Hd.
    pose proof (MakeDay_day y m 1 (DateFromDay n + 0 - 1)) as D.
    replace (1 + (DateFromDay n + 0 - 1)) with (DateFromDay n + 0) in D by lia.
    lia.
  - intros H.
    assert (E : n = MakeDay y m (n - MakeDay y m 1 + 1)).
    { replace (n - MakeDay y m 1 + 1) with (1 + (n - MakeDay y m 1)) by lia.
      rewrite MakeDay_day. lia. }
    destruct (fields_MakeDay y m (n - MakeDay y m 1 + 1) Hm ltac:(lia))
      as [Fy [Fm _]].
    rewrite <- E in Fy, Fm. split; assumption.
Qed.

Lemma trail_increasing n : forall c i j a b,
  (i < j)%nat -> nth_error (trail n c) i = Some a ->
  nth_error (trail n c) j = Some b ->
  localDay (Cell.date a) < localDay (Cell.date b).
Proof.
  induction n as [| n IH]; intros c i j a b Hij Ha Hb;
    [destruct i; discriminate |].
  cbn [trail] in Ha, Hb. destruct j as [| j]; [lia |]. cbn [nth_error] in Hb.
  destruct i as [| i].
  - cbn [nth_error] in Ha. injection Ha as <-.
    apply (trail_later n). eapply nth_error_In. exact Hb.
  - cbn [nth_error] in Ha. apply (IH (nextCell c) i j); [lia | assumption..].
Qed.

Section GridOrder.

Variable anchor : Date.

Let year := getFullYear anchor.
Let month := getMonth anchor.
Let firstOfMonth := newDate year month 1.
Let startWeekday := getDay firstOfMonth.
Let daysInMonth := getDate (newDate year (month + 1) 0).
Let F := localDay firstOfMonth.
Let grid :=
  leadingDays year month startWeekday
  ++ currentDays year month daysInMonth
  ++ trail (42 - Z.to_nat startWeekday - Z.to_nat daysInMonth)
           (Cell.make (mkDate (F + daysInMonth - 1) 0) true).

(** The days of the grid go up from cell to cell, for every anchor. *)
Lemma grid_increasing (i j : nat) (a b : Cell.t) :
  (i < j)%nat -> nth_error grid i = Some a -> nth_error grid j = Some b ->
  localDay (Cell.date a) < localDay (Cell.date b).
Proof.
  intros Hij Ha Hb.
  pose proof (startWeekday_range anchor) as Hs.
  pose proof (daysInMonth_range anchor) as Hd.
  fold year month firstOfMonth startWeekday in Hs.
  fold year month daysInMonth in Hd.
  pose proof (grid_cell_cases anchor i a Ha) as Ca.
  pose proof (grid_cell_cases anchor j b Hb) as Cb.
  fold year month firstOfMonth startWeekday daysInMonth F in Ca, Cb.
  destruct Ca as [[Hi ->] | [[Hi ->] | [Hi Ia]]];
    destruct Cb as [[Hj ->] | [[Hj ->] | [Hj Ib]]];
    cbn [Cell.date localDay]; try lia.
  - apply trail_later in Ib. cbn [Cell.date localDay] in Ib. lia.
  - apply trail_later in Ib. cbn [Cell.date localDay] in Ib. lia.
  - unfold grid in Ha, Hb.
    rewrite !nth_error_app2 in Ha, Hb
      by (rewrite ?length_map, ?length_seq;
          unfold leadingDays, currentDays;
          rewrite ?length_map, ?length_seq; lia).
    eapply trail_increasing; [| exact Ha | exact Hb].
    unfold leadingDays, currentDays. rewrite !length_map, !length_seq. lia.
Qed.

(** The in-month flag of a cell, from its day. *)
Lemma grid_flag (i : nat) (c : Cell.t) :
  nth_error grid i = Some c ->
  (Cell.inMonth c = true <-> F <= localDay (Cell.date c) < F + daysInMonth).
Proof.
  intros H.
  pose proof (startWeekday_range anchor) as Hs.
  pose proof (daysInMonth_range anchor) as Hd.
  fold year month firstOfMonth startWeekday in Hs.
  fold year month daysInMonth in Hd.
  pose proof (grid_cell_cases anchor i c H) as C.
  fold year month firstOfMonth startWeekday daysInMonth F in C.
  destruct C as [[Hi ->] | [[Hi ->] | [Hi Ic]]]; cbn [Cell.date Cell.inMonth localDay].
  - split; [discriminate | lia].
  - split; [lia | reflexivity].
  - pose proof (trail_not_inMonth _ _ _ Ic) as N.
    apply trail_later in Ic. cbn [Cell.date localDay] in Ic.
    rewrite N. split; [discriminate | lia].
Qed.

Lemma grid_month_span :
  plainYear anchor ->
  F = MakeDay year month 1 /\ daysInMonth = daysOfMonth year month.
Proof.
  intros Hp. split.
  - unfold F, firstOfMonth, newDate. cbn [localDay].
    rewrite MakeFullYear_plain by exact Hp. reflexivity.
  - unfold daysInMonth, year, month. rewrite daysInMonth_eq.
    rewrite MakeFullYear_plain by exact Hp. reflexivity.
Qed.

(** Day [k] of the month is the cell [k - 1] places after
    [startWeekday]. *)
Lemma grid_day_of_month (k : Z) :
  1 <= k <= daysInMonth ->
  nth_error grid (Z.to_nat (startWeekday + k - 1))
  = Some (Cell.make (newDate year month k) true).
Proof.
  intros Hk.
  pose proof (startWeekday_range anchor) as Hs.
  fold year month firstOfMonth startWeekday in Hs.
  unfold grid.
  rewrite nth_error_app2
    by (unfold leadingDays; rewrite length_map, length_seq; lia).
  rewrite nth_error_app1
    by (unfold leadingDays, currentDays; rewrite !length_map, !length_seq; lia).
  unfold leadingDays at 1. rewrite length_map, length_seq.
  unfold currentDays. rewrite nth_error_map.
  replace (Z.to_nat (startWeekday + k - 1) - Z.to_nat startWeekday)%nat
    with (Z.to_nat (k - 1)) by lia.
  rewrite (nth_error_nth' (seq 1 (Z.to_nat daysInMonth)) 0%nat)
    by (rewrite length_seq; lia).
  rewrite seq_nth by lia. cbn [option_map]. do 3 f_equal. lia.
Qed.

End GridOrder.

(** X21.  For an anchor whose year is outside 0 to 99, the in-month flag
    is right: a cell of the grid is marked in-month exactly when its date
    lies in the month and year of the anchor. *)
Theorem buildMonthGrid_inMonth_iff :
  forall anchor : Date,
    plainYear anchor ->
    exists grid : list Cell.t,
      buildMonthGrid anchor = Some grid
      /\ forall c : Cell.t,
           In c grid ->
           (Cell.inMonth c = true
            <-> getFullYear (Cell.date c) = getFullYear anchor
                /\ getMonth (Cell.date c) = getMonth anchor).
Proof.
  intros anchor Hp. eexists. split; [apply buildMonthGrid_eq |].
  intros c Hc. apply In_nth_error in Hc. destruct Hc as [i Hi].
  rewrite (grid_flag anchor i c Hi).
  destruct (grid_month_span anchor Hp) as [-> ->].
  symmetry. apply in_month_iff. apply getMonth_range.
Qed.

Lemma buildMonthGrid_inMonth_iff_witness :
  plainYear (newDate 2025 1 10)
  /\ exists grid : list Cell.t, buildMonthGrid (newDate 2025 1 10) = Some grid.
Proof.
  assert (P : plainYear (newDate 2025 1 10))
    by (apply plainYear_recent; vm_compute; discriminate).
  split; [exact P |].
  destruct (buildMonthGrid_inMonth_iff (newDate 2025 1 10) P) as [g [E _]].
  exists g. exact E.
Defined.

(** X22.  For an anchor whose year is outside 0 to 99, every day of the
    anchor's month is in the grid exactly once: day [k] of the month is
    the cell at index [startWeekday + k - 1], marked in-month, and no
    other cell holds that day. *)
Theorem buildMonthGrid_month_days :
  forall (anchor : Date) (k : Z),
    plainYear anchor ->
    1 <= k <= daysOfMonth (getFullYear anchor) (getMonth anchor) ->
    let year := getFullYear anchor in
    let month := getMonth anchor in
    let startWeekday := getDay (newDate year month 1) in
    exists grid : list Cell.t,
      buildMonthGrid anchor = Some grid
      /\ nth_error grid (Z.to_nat (startWeekday + k - 1))
         = Some (Cell.make (newDate year month k) true)
      /\ (getFullYear (newDate year month k), getMonth (newDate year month k),
          getDate (newDate year month k)) = (year, month, k)
      /\ (forall (i : nat) (c : Cell.t),
             nth_error grid i = Some c ->
             isSameDay (Cell.date c) (newDate year month k) = true ->
             i = Z.to_nat (startWeekday + k - 1)).
Proof.
  intros anchor k Hp Hk year month startWeekday.
  pose proof (startWeekday_range anchor) as Hs. fold year month startWeekday in Hs.
  pose proof (daysInMonth_range anchor) as Hd.
  destruct (grid_month_span anchor Hp) as [EF ED]. fold year month in EF, ED.
  fold year month in Hk. rewrite <- ED in Hk.
  eexists. split; [apply buildMonthGrid_eq |].
  fold year month startWeekday.
  set (dim := getDate (newDate year (month + 1) 0)) in *.
  assert (Ek : newDate year month k
               = mkDate (localDay (newDate year month 1) + (k - 1)) 0).
  { replace k with (1 + (k - 1)) at 1 by lia. apply (newDate_offset anchor). }
  split; [| split].
  - apply (grid_day_of_month anchor k). exact Hk.
  - unfold newDate at 1 2 3, getFullYear at 1, getMonth at 1, getDate at 1.
    cbn [localDay]. fold year. rewrite MakeFullYear_plain by exact Hp.
    destruct (fields_MakeDay year month k (getMonth_range anchor)) as [A [B C]].
    + rewrite <- ED. exact Hk.
    + rewrite A, B, C. reflexivity.
  - intros i c Hi Hsame. apply isSameDay_localDay in Hsame.
    rewrite Ek in Hsame. cbn [localDay] in Hsame.
    pose proof (grid_cell_cases anchor i c Hi) as C.
    fold year month startWeekday dim in C.
    destruct C as [[Hj ->] | [[Hj ->] | [Hj Ic]]]; cbn [Cell.date localDay] in Hsame.
    + lia.
    + lia.
    + apply trail_later in Ic. cbn [Cell.date localDay] in Ic. lia.
Qed.

Lemma buildMonthGrid_month_days_witness :
  exists grid : list Cell.t,
    buildMonthGrid (newDate 2024 1 10) = Some grid
    /\ nth_error grid
         (Z.to_nat (getDay (newDate (getFullYear (newDate 2024 1 10))
                              (getMonth (newDate 2024 1 10)) 1) + 29 - 1))
       = Some (Cell.make (newDate (getFullYear (newDate 2024 1 10))
                            (getMonth (newDate 2024 1 10)) 29) true).
Proof.
  destruct (buildMonthGrid_month_days (newDate 2024 1 10) 29) as [g [E [N _]]].
  - apply plainYear_recent; vm_compute; discriminate.
  - vm_compute. split; discriminate.
  - exists g. split; [exact E | exact N].
Defined.

(** ** What [CalendarGrid] computes *)

Lemma nth_error_map_inv {A B} (f : A -> B) (l : list A) (i : nat) (y : B) :
  nth_error (map f l) i = Some y ->
  exists x, nth_error l i = Some x /\ y = f x.
Proof.
  rewrite nth_error_map. destruct (nth_error l i) as [x |]; [| discriminate].
  cbn. intros H. injection H as <-. exists x. split; reflexivity.
Qed.

Lemma Some_eq_inv {A} (a b : A) : Some a = Some b -> a = b.
Proof. intros H. injection H as H. exact H. Qed.

Lemma CalendarGrid_cells today monthDate getAssignee hl views :
  CalendarGrid today monthDate getAssignee hl = Some views ->
  exists grid,
    buildMonthGrid monthDate = Some grid
    /\ forall i v,
         nth_error views i = Some v ->
         exists c,
           nth_error grid i = Some c
           /\ CellView.date v = Cell.date c
           /\ CellView.inMonth v = Cell.inMonth c
           /\ CellView.who v = getAssignee (Cell.date c)
           /\ CellView.isTodayCell v = isSameDay (Cell.date c) today
           /\ CellView.isHighlighted v
              = isHighlightedCell hl (getAssignee (Cell.date c)).
Proof.
  unfold CalendarGrid. intros H.
  destruct (buildMonthGrid monthDate) as [grid |]; [| discriminate].
  injection H as <-. exists grid. split; [reflexivity |].
  intros i v Hv. apply nth_error_map_inv in Hv. destruct Hv as [c [Hc ->]].
  exists c. cbn. repeat split; assumption || reflexivity.
Qed.

(** X23.  In the grid that [CalendarGrid] renders, at most one cell is
    today's, for every month shown; and when today lies in the month shown
    (a month of a year outside 0 to 99), exactly the cell of today's day
    of the month is today's, and it is marked in-month. *)
Theorem CalendarGrid_today_cell :
  forall (today monthDate : Date) (getAssignee : Date -> option Tenant)
         (hl : option string) (views : list CellView.t),
    CalendarGrid today monthDate getAssignee hl = Some views ->
    (forall (i j : nat) (vi vj : CellView.t),
        nth_error views i = Some vi -> nth_error views j = Some vj ->
        CellView.isTodayCell vi = true -> CellView.isTodayCell vj = true ->
        i = j)
    /\ (plainYear monthDate ->
        getFullYear today = getFullYear monthDate ->
        getMonth today = getMonth monthDate ->
        exists v : CellView.t,
          nth_error views
            (Z.to_nat (getDay (newDate (getFullYear monthDate)
                                 (getMonth monthDate) 1)
                       + getDate today - 1)) = Some v
          /\ CellView.isTodayCell v = true
          /\ CellView.inMonth v = true).
Proof.
  intros today monthDate getAssignee hl views H.
  pose proof H as H0. unfold CalendarGrid in H0.
  destruct (CalendarGrid_cells _ _ _ _ _ H) as [grid [E Hc]].
  rewrite buildMonthGrid_eq in E. apply Some_eq_inv in E.
  split.
  - intros i j vi vj Hi Hj Ti Tj.
    destruct (Hc i vi Hi) as [ci [Gi [_ [_ [_ [Si _]]]]]].
    destruct (Hc j vj Hj) as [cj [Gj [_ [_ [_ [Sj _]]]]]].
    rewrite Ti in Si. rewrite Tj in Sj.
    symmetry in Si, Sj. apply isSameDay_localDay in Si, Sj.
    rewrite <- E in Gi, Gj.
    destruct (Nat.lt_trichotomy i j) as [L | [L | L]]; [| exact L |].
    + pose proof (grid_increasing monthDate i j ci cj L Gi Gj). lia.
    + pose proof (grid_increasing monthDate j i cj ci L Gj Gi). lia.
  - intros Hp Hy Hm.
    destruct (grid_month_span monthDate Hp) as [EF ED].
    pose proof (DateFromDay_range (localDay today)) as Hd.
    fold (getFullYear today) in Hd. fold (getMonth today) in Hd.
    fold (getDate today) in Hd. rewrite Hy, Hm, <- ED in Hd.
    pose proof (grid_day_of_month monthDate (getDate today) Hd) as G.
    rewrite E in G.
    rewrite buildMonthGrid_eq in H0. rewrite E in H0.
    apply Some_eq_inv in H0. subst views.
    rewrite nth_error_map, G. cbn [option_map].
    eexists. split; [reflexivity |]. cbn. split; [| reflexivity].
    apply isSameDay_localDay. unfold newDate. cbn [localDay].
    rewrite MakeFullYear_plain by exact Hp.
    pose proof (MakeDay_fields (localDay today) 0) as R.
    fold (getFullYear today) in R. fold (getMonth today) in R.
    fold (getDate today) in R. rewrite Hy, Hm, !Z.add_0_r in R. exact R.
Qed.

Lemma CalendarGrid_today_cell_witness :
  plainYear (newDate 2025 7 1)
  /\ exists v : CellView.t, CellView.isTodayCell v = true.
Proof.
  assert (P : plainYear (newDate 2025 7 1))
    by (apply plainYear_recent; vm_compute; discriminate).
  split; [exact P |].
  destruct (CalendarGrid (newDate 2025 7 20) (newDate 2025 7 1)
              (Wednesday.getAssigneeForDate easternZone) None)
    as [views |] eqn:E; [| vm_compute in E; discriminate E].
  destruct (proj2 (CalendarGrid_today_cell _ _ _ _ _ E) P)
    as [v [_ [T _]]]; [reflexivity | reflexivity |].
  exists v. exact T.
Defined.

(** X24.  In the grid that [CalendarGrid] renders for a month outside the
    years 0 to 99 and December of the year -1, with at least one tenant:
    a cell has an assignee exactly when it stands in the column of the
    duty weekday, so each of the six rows has one duty cell. *)
Theorem CalendarGrid_duty_column :
  forall (tz : TimeZone) (tenants : list Tenant) (anchor : Date) (duty : Z)
         (today monthDate : Date) (hl : option string)
         (views : list CellView.t),
    tenants <> [] ->
    plainYear monthDate ->
    ~ (getFullYear monthDate = -1 /\ getMonth monthDate = 11) ->
    CalendarGrid today monthDate (getAssigneeForDate tz tenants anchor duty) hl
    = Some views ->
    List.length views = 42%nat
    /\ forall (i : nat) (v : CellView.t),
         nth_error views i = Some v ->
         (CellView.who v <> None <-> Z.of_nat i mod 7 = duty).
Proof.
  intros tz tenants anchor duty today monthDate hl views Hne Hp Hdec H.
  destruct (CalendarGrid_cells _ _ _ _ _ H) as [grid [E Hc]].
  destruct (buildMonthGrid_consecutive monthDate Hp Hdec)
    as [grid' [E' [L [_ [_ Hcells]]]]].
  rewrite E in E'. apply Some_eq_inv in E'. subst grid'.
  split.
  - unfold CalendarGrid in H. rewrite E in H. apply Some_eq_inv in H.
    subst views. rewrite length_map. exact L.
  - intros i v Hv.
    destruct (Hc i v Hv) as [c [Gc [_ [_ [W _]]]]].
    assert (Hi : (i < 42)%nat)
      by (rewrite <- L; apply nth_error_Some; congruence).
    destruct (Hcells i Hi) as [c' [Gc' [_ Hday]]].
    rewrite Gc in Gc'. apply Some_eq_inv in Gc'. subst c'.
    rewrite W, <- Hday. split.
    + intros N. destruct (Z.eq_dec (getDay (Cell.date c)) duty) as [D | D];
        [exact D |].
      exfalso. apply N. apply assignee_off. exact D.
    + intros D N.
      destruct (assignee_on_some tz tenants anchor duty (Cell.date c) Hne D)
        as [t [Ht _]]. congruence.
Qed.

Lemma CalendarGrid_duty_column_witness :
  exists views : list CellView.t,
    CalendarGrid (newDate 2025 7 20) (newDate 2025 7 1)
      (getAssigneeForDate easternZone TENANTS ROTATION_START WEDNESDAY) None
    = Some views
    /\ List.length views = 42%nat.
Proof.
  destruct (CalendarGrid (newDate 2025 7 20) (newDate 2025 7 1)
              (getAssigneeForDate easternZone TENANTS ROTATION_START WEDNESDAY)
              None) as [views |] eqn:E; [| vm_compute in E; discriminate E].
  exists views. split; [reflexivity |].
  apply (CalendarGrid_duty_column easternZone TENANTS ROTATION_START WEDNESDAY
           (newDate 2025 7 20) (newDate 2025 7 1) None views).
  - discriminate.
  - apply plainYear_recent; vm_compute; discriminate.
  - vm_compute. intros [A _]. discriminate A.
  - exact E.
Defined.

(** X25.  When the tenants have distinct identifiers, [CalendarGrid]
    highlights exactly the cells whose assignee is the tenant that
    [selectedTenant] finds for the selection; with nothing selected (the
    empty identifier) no cell is highlighted. *)
Theorem CalendarGrid_highlight :
  forall (tz : TimeZone) (tenants : list Tenant) (anchor : Date) (duty : Z)
         (today monthDate : Date) (selectedTenantId : string)
         (views : list CellView.t),
    NoDup (map id tenants) ->
    CalendarGrid today monthDate (getAssigneeForDate tz tenants anchor duty)
      (highlightTenantIdOf selectedTenantId) = Some views ->
    forall v : CellView.t,
      In v views ->
      (CellView.isHighlighted v = true
       <-> selectedTenantId <> EmptyString
           /\ exists t : Tenant,
                CellView.who v = Some t
                /\ selectedTenant tenants selectedTenantId = Some t).
Proof.
  intros tz tenants anchor duty today monthDate sel views N H v Hv.
  destruct (CalendarGrid_cells _ _ _ _ _ H) as [grid [_ Hc]].
  apply In_nth_error in Hv. destruct Hv as [i Hi].
  destruct (Hc i v Hi) as [c [_ [_ [_ [W [_ Hh]]]]]].
  rewrite Hh, <- W. unfold highlightTenantIdOf, isHighlightedCell.
  destruct (String.eqb_spec sel EmptyString) as [E | E].
  - split; [discriminate | intros [C _]; contradiction].
  - destruct (String.eqb_spec sel EmptyString) as [E' | _]; [contradiction |].
    destruct (CellView.who v) as [w |] eqn:Ew.
    + split.
      * intros I. apply String.eqb_eq in I. split; [exact E |].
        exists w. split; [reflexivity |].
        unfold selectedTenant. rewrite <- I.
        apply find_by_unique_id; [exact N |].
        eapply assignee_In. symmetry. exact W.
      * intros [_ [t [Et Ft]]]. injection Et as <-.
        unfold selectedTenant in Ft. apply find_some in Ft.
        destruct Ft as [_ Ft]. exact Ft.
    + split; [discriminate | intros [_ [t [Et _]]]; discriminate Et].
Qed.

Lemma CalendarGrid_highlight_witness :
  NoDup (map id TENANTS)
  /\ exists views : list CellView.t,
       CalendarGrid (newDate 2025 7 20) (newDate 2025 7 1)
         (getAssigneeForDate easternZone TENANTS ROTATION_START WEDNESDAY)
         (highlightTenantIdOf "3") = Some views
       /\ forall v : CellView.t,
            In v views ->
            (CellView.isHighlighted v = true
             <-> "3"%string <> EmptyString
                 /\ exists t : Tenant,
                      CellView.who v = Some t
                      /\ selectedTenant TENANTS "3" = Some t).
Proof.
  assert (N : NoDup (map id TENANTS)).
  { cbn. repeat constructor; cbn; intuition discriminate. }
  split; [exact N |].
  destruct (CalendarGrid (newDate 2025 7 20) (newDate 2025 7 1)
              (getAssigneeForDate easternZone TENANTS ROTATION_START WEDNESDAY)
              (highlightTenantIdOf "3")) as [views |] eqn:E;
    [| vm_compute in E; discriminate E].
  exists views. split; [reflexivity |].
  exact (CalendarGrid_highlight easternZone TENANTS ROTATION_START WEDNESDAY
           (newDate 2025 7 20) (newDate 2025 7 1) "3" views N E).
Defined.
